(** * The UOCAVA ballot-deadline chart ([script.js])

    A shallow embedding of the chart script: the CSV row accessor, the
    sort of the loaded records, the two scales, the filter state and its
    three change handlers, [applyFilters], [updateChart], the y-axis
    helpers and the legend table, followed by the properties proved of
    them.

    Conventions.
    - Every [Date] the script handles is a local midnight: [d3.timeParse]
      is used with a specifier that has no time field, and
      [d3.timeDay.offset] moves a date with [setDate].  A date is therefore
      represented by its calendar day number (days since 1970-01-01 in the
      proleptic Gregorian calendar); [None] stands for JavaScript's [null]
      in a record field and for an Invalid Date in a scale domain.
    - The pixel positions computed by the d3 scales are floating point
      numbers; they are kept symbolic: a [Pixel] names the scale, as
      configured at the time of the call, and the value it was applied
      to.
    - The DOM below the chart group is a tree of [Node]s carrying what the
      script's selectors and attribute setters read and write: tag, class
      tokens, bound datum, attributes, text and children.
    - A character of a [string] stands for the UTF-16 code unit of the
      same number: the strings of the model are the JavaScript strings
      whose code units are below 256.  The date parser works on code
      units, and what is proved of it holds for every sequence of them. *)

From Stdlib Require Import ZArith List String Ascii Bool Lia.
From Stdlib Require Import Permutation Sorted.
Import ListNotations.

Open Scope string_scope.
Open Scope list_scope.
Open Scope Z_scope.

(** ** Dates *)

Definition Date := Z.

(** Day number of a proleptic Gregorian calendar date, month in 1..12. *)
Definition days_from_civil (y m d : Z) : Z :=
  let y' := if m <=? 2 then y - 1 else y in
  let era := y' / 400 in
  let yoe := y' - era * 400 in
  let doy := (153 * (if m >? 2 then m - 3 else m + 9) + 2) / 5 + d - 1 in
  let doe := yoe * 365 + yoe / 4 - yoe / 100 + doy in
  era * 146097 + doe - 719468.

(** Calendar date (year, month in 1..12, day) of a day number. *)
Definition civil_from_days (z : Z) : Z * Z * Z :=
  let z := z + 719468 in
  let era := z / 146097 in
  let doe := z - era * 146097 in
  let yoe := (doe - doe / 1460 + doe / 36524 - doe / 146096) / 365 in
  let doy := doe - (365 * yoe + yoe / 4 - yoe / 100) in
  let mp := (5 * doy + 2) / 153 in
  let d := doy - (153 * mp + 2) / 5 + 1 in
  let m := if mp <? 10 then mp + 3 else mp - 9 in
  ((yoe + era * 400 + (if m <=? 2 then 1 else 0)), m, d).

(** ** The parts of d3 and of the JavaScript runtime the script calls *)

Module JS.

(** ECMAScript [MakeDay(year, month, date)] with a 0-based month: the
    month overflows into the year and the day of month is added to the
    first of the month, as [new Date(y, m, d)] does. *)
Definition MakeDay (year month date : Z) : Date :=
  let ym := year + month / 12 in
  let mn := month mod 12 in
  days_from_civil ym (mn + 1) 1 + date - 1.

(** [Date.prototype.setFullYear(y)]: same month and day of month, new
    year. *)
Definition setFullYear (t : Date) (y : Z) : Date :=
  let '(_, m, d) := civil_from_days t in
  MakeDay y (m - 1) d.

(** [Array.prototype.sort(comparefn)].  The comparator protocol is fixed
    by the language (a positive [comparefn(a, b)] places [a] after [b]);
    the sequence of comparator calls is the engine's.  The model is the
    array insertion sort: each element in turn is moved left past every
    predecessor [y] with [comparefn(y, x) > 0].  [insert_back] works on
    the already sorted prefix held in reverse. *)
Section Sort.
Context {A : Type} (comparefn : A -> A -> Z).

Fixpoint insert_back (x : A) (prefix_rev : list A) : list A :=
  match prefix_rev with
  | [] => [x]
  | y :: rest =>
      if comparefn y x >? 0 then y :: insert_back x rest
      else x :: prefix_rev
  end.

Definition sort (l : list A) : list A :=
  rev (fold_left (fun prefix_rev x => insert_back x prefix_rev) l []).

(** A second engine: top-down merge sort, the left run winning ties
    ([comparefn(a, b) <= 0] keeps [a] first).  Used to check that the
    ordering proved of [sort] does not depend on the engine. *)
Fixpoint merge (l1 : list A) : list A -> list A :=
  fix merge_right (l2 : list A) : list A :=
    match l1, l2 with
    | [], _ => l2
    | _, [] => l1
    | a :: l1', b :: l2' =>
        if comparefn a b >? 0 then b :: merge_right l2'
        else a :: merge l1' l2
    end.

Fixpoint merge_sort_fuel (fuel : nat) (l : list A) : list A :=
  match fuel with
  | O => l
  | S fuel' =>
      match l with
      | [] | [_] => l
      | _ =>
          let half := Nat.div2 (List.length l) in
          merge (merge_sort_fuel fuel' (firstn half l))
                (merge_sort_fuel fuel' (skipn half l))
      end
  end.

Definition merge_sort (l : list A) : list A :=
  merge_sort_fuel (List.length l) l.
End Sort.

(** [new Set(iterable)]: the values in order of first appearance, each
    once.  [seen] is the set built so far. *)
Fixpoint add_unseen (seen values : list string) : list string :=
  match values with
  | [] => []
  | v :: rest =>
      if existsb (String.eqb v) seen then add_unseen seen rest
      else v :: add_unseen (v :: seen) rest
  end.

Definition new_Set (values : list string) : list string :=
  add_unseen [] values.

(** [array.includes(v)] on an array of strings. *)
Definition includes (l : list string) (v : string) : bool :=
  existsb (String.eqb v) l.

End JS.

Module D3.

(** [d3.ascending(a, b)] on two valid dates: -1, 0 or 1. *)
Definition ascending (a b : Date) : Z :=
  if a <? b then -1 else if a >? b then 1 else 0.

(** The values the accessor of [d3.min] returns in this script: a date,
    or the number [Infinity]. *)
Inductive DateOrInfinity :=
| Finite (d : Date)
| Infinity.

(** JavaScript [a > b] on such values (a date compares by its time
    value). *)
Definition gt (a b : DateOrInfinity) : bool :=
  match a, b with
  | Finite x, Finite y => x >? y
  | Infinity, Finite _ => true
  | _, Infinity => false
  end.

(** [d3.min(values, valueof)]: the running minimum starts [undefined]
    ([None]) and is replaced by a value when [min > value], or when it is
    still [undefined]. *)
Definition min {A : Type} (values : list A) (valueof : A -> DateOrInfinity)
  : option DateOrInfinity :=
  fold_left
    (fun m a =>
       let value := valueof a in
       match m with
       | None => Some value
       | Some cur => if gt cur value then Some value else m
       end)
    values None.

(** [d3.max(values, valueof)] with an accessor that returns a date or
    [null]: [null] values are skipped, the running maximum is replaced
    when [max < value] or when it is still [undefined]. *)
Definition max {A : Type} (values : list A) (valueof : A -> option Date)
  : option Date :=
  fold_left
    (fun m a =>
       match valueof a with
       | None => m
       | Some value =>
           match m with
           | None => Some value
           | Some cur => if cur <? value then Some value else m
           end
       end)
    values None.

(** [d3.timeDay.offset(date, step)]: a copy of the date moved by [step]
    calendar days with [setDate].  [new Date(Infinity)] and
    [new Date(undefined)] are Invalid Dates ([None]). *)
Definition timeDay_offset (date : option DateOrInfinity) (step : Z)
  : option Date :=
  match date with
  | Some (Finite d) => Some (d + step)
  | _ => None
  end.

(** The domain setter of an ordinal or band scale keeps the first
    occurrence of every value of the iterable it is given. *)
Definition ordinal_domain (values : list string) : list string :=
  JS.new_Set values.

(** *** [d3.timeParse('%m/%d/%Y')]

    The parser of d3-time-format for this specifier, on the UTF-16 code
    units of the string.  A numeric field [%m], [%d] ([width] 2) or [%Y]
    ([width] 4) matches [/^\s*\d+/] on the next [width] code units; a
    literal must match the next code unit; the parse succeeds only when
    the whole string is consumed; every failure returns [null].  Fields
    are not range-checked: they go to the [Date] constructor, which
    normalises them.

    A character of a [string] stands for the code unit of the same
    number, so that the strings of the model are the JavaScript strings
    whose code units are below 256; the parser is defined, and its
    properties are proved, for every sequence of code units. *)

Definition code_units (s : string) : list N :=
  map N_of_ascii (list_ascii_of_string s).

(** [\d] on a code unit. *)
Definition is_digit (c : N) : bool := ((48 <=? c) && (c <=? 57))%N.

(** [\s] on a code unit: TAB, LF, VT, FF, CR, SP, NBSP, U+1680,
    U+2000..U+200A, LS, PS, U+202F, U+205F, U+3000 and ZWNBSP. *)
Definition is_space (c : N) : bool :=
  (((9 <=? c) && (c <=? 13))
   || (c =? 32) || (c =? 160) || (c =? 5760)
   || ((8192 <=? c) && (c <=? 8202))
   || (c =? 8232) || (c =? 8233) || (c =? 8239) || (c =? 8287)
   || (c =? 12288) || (c =? 65279))%N.

Definition digit_value (c : N) : Z := Z.of_N c - 48.

(** The code unit of "/". *)
Definition slash : N := 47.

(** The digits of the match: value so far, number of digits, rest. *)
Fixpoint take_digits (width : nat) (s : list N) (acc : Z) (n : nat)
  : Z * nat * list N :=
  match width, s with
  | S w, c :: s' =>
      if is_digit c then take_digits w s' (10 * acc + digit_value c) (S n)
      else (acc, n, s)
  | _, _ => (acc, n, s)
  end.

(** [numberRe.exec(string.slice(i, i + width))]: the numeric value of
    the match and the code units after it, or [None]. *)
Fixpoint number_re (width : nat) (s : list N) : option (Z * list N) :=
  match width, s with
  | S w, c :: s' =>
      if is_space c then number_re w s'
      else
        match take_digits width s 0 0 with
        | (_, O, _) => None
        | (v, _, rest) => Some (v, rest)
        end
  | _, _ => None
  end.

(** [localDate(d)]: years 0..99 are built in year -1 and moved with
    [setFullYear], as the [Date] constructor would read them as
    1900..1999. *)
Definition localDate (y m d : Z) : Date :=
  if (0 <=? y) && (y <? 100)
  then JS.setFullYear (JS.MakeDay (-1) m d) y
  else JS.MakeDay y m d.

Definition timeParse_units (s : list N) : option Date :=
  match number_re 2 s with
  | Some (month, c1 :: s1) =>
      if (c1 =? slash)%N then
        match number_re 2 s1 with
        | Some (day, c2 :: s2) =>
            if (c2 =? slash)%N then
              match number_re 4 s2 with
              | Some (year, []) => Some (localDate year (month - 1) day)
              | _ => None
              end
            else None
        | _ => None
        end
      else None
  | _ => None
  end.

Definition timeParse_mdY (s : string) : option Date :=
  timeParse_units (code_units s).

End D3.

(** ** Data model *)

(** A raw CSV row as [d3.csv] hands it to the row accessor: one string per
    header column. *)
Record Row := {
  col_State : string;
  col_Recommended_Mail_Date : string;
  col_Ballot_Postmark_Deadline : string;
  col_Ballot_Receipt_Deadline : string;
  col_Return_Methods : string
}.

(** The object the row accessor returns (lines 31-37). *)
Record Datum := {
  state : string;
  recommended_mail_date : option Date;
  ballot_postmark_deadline : option Date;
  ballot_receipt_deadline : option Date;
  return_methods : string
}.

Definition Datum_eq_dec (a b : Datum) : {a = b} + {a <> b}.
Proof.
  decide equality;
    try apply string_dec;
    try (decide equality; apply Z.eq_dec).
Defined.

(** The global [filters] object (lines 17-21). *)
Record FilterState := {
  all : bool;
  post : bool;
  postElectronic : bool
}.

(** The time scale [x] and the band scale [y], as far as the script
    configures them; the padding 0.2 is kept as the fraction [(2, 10)]. *)
Record TimeScale := {
  time_domain : option Date * option Date;
  time_range : Z * Z
}.

Record BandScale := {
  band_domain : list string;
  band_range : Z * Z;
  band_padding : Z * Z
}.

(** A pixel position handed to an attribute setter: [x(date)] under a
    time scale ([date] is the field value, [None] for [null]), or
    [y(state) + y.bandwidth() / 2] under a band scale. *)
Inductive Pixel :=
| time_image (x : TimeScale) (date : option Date)
| band_center (y : BandScale) (state : string).

Inductive AttrValue :=
| APixel (p : Pixel)
| ANumber (n : Z)
| AString (s : string).

(** An entry of [legendData]. *)
Record LegendEntry := {
  label : string;
  color : string
}.

(** The value d3 binds to an element ([__data__]). *)
Inductive Bound :=
| Unbound
| BoundDatum (d : Datum)
| BoundState (s : string)
| BoundLegend (e : LegendEntry).

(** A DOM element below the chart group. *)
#[warnings="-register-all"]
Inductive Node :=
| El (tag : string) (class : list string) (datum : Bound)
     (attrs : list (string * AttrValue)) (style : list (string * string))
     (text : option string) (kids : list Node).

Definition tag (n : Node) : string := let 'El t _ _ _ _ _ _ := n in t.
Definition class (n : Node) : list string := let 'El _ c _ _ _ _ _ := n in c.
Definition datum (n : Node) : Bound := let 'El _ _ d _ _ _ _ := n in d.
Definition attrs (n : Node) := let 'El _ _ _ a _ _ _ := n in a.
Definition style (n : Node) := let 'El _ _ _ _ s _ _ := n in s.
Definition text (n : Node) : option string := let 'El _ _ _ _ _ x _ := n in x.
Definition kids (n : Node) : list Node := let 'El _ _ _ _ _ _ k := n in k.

(** Everything the closures of the [then] callback share: the loaded
    records, the global filter flags, the two scales and the chart group
    [svg]. *)
Record Page := {
  data : list Datum;
  filters : FilterState;
  x : TimeScale;
  y : BandScale;
  svg : Node
}.

(** ** DOM selections *)

Definition has_class (c : string) (n : Node) : bool :=
  existsb (String.eqb c) (class n).

(** A selector that is a list of class alternatives, as ['.dot, .line']. *)
Definition has_any_class (cs : list string) (n : Node) : bool :=
  existsb (fun c => has_class c n) cs.

(** A node followed by its descendants, in document order. *)
Fixpoint subtree (n : Node) : list Node :=
  n :: (fix each (ks : list Node) : list Node :=
          match ks with
          | [] => []
          | k :: ks' => subtree k ++ each ks'
          end) (kids n).

Definition descendants (n : Node) : list Node := flat_map subtree (kids n).

(** [g.selectAll(selector)]: the descendants of [g] the selector
    matches. *)
Definition selectAll (sel : Node -> bool) (g : Node) : list Node :=
  filter sel (descendants g).

(** [g.selectAll(selector).remove()]: every matching descendant is
    detached, with its subtree. *)
Fixpoint remove_all (sel : Node -> bool) (n : Node) : Node :=
  match n with
  | El t c d a s tx ks =>
      El t c d a s tx
         ((fix each (ks : list Node) : list Node :=
             match ks with
             | [] => []
             | k :: ks' =>
                 if sel k then each ks' else remove_all sel k :: each ks'
             end) ks)
  end.

(** [g.select(selector).remove()]: the first matching descendant in
    document order is detached; [None] when nothing matches. *)
Fixpoint remove_first (sel : Node -> bool) (n : Node) : option Node :=
  match n with
  | El t c d a s tx ks =>
      match
        (fix each (ks : list Node) : option (list Node) :=
           match ks with
           | [] => None
           | k :: ks' =>
               if sel k then Some ks'
               else
                 match remove_first sel k with
                 | Some k' => Some (k' :: ks')
                 | None =>
                     match each ks' with
                     | Some r => Some (k :: r)
                     | None => None
                     end
                 end
           end) ks
      with
      | Some ks' => Some (El t c d a s tx ks')
      | None => None
      end
  end.

Definition select_remove (sel : Node -> bool) (g : Node) : Node :=
  match remove_first sel g with
  | Some g' => g'
  | None => g
  end.

(** [g.append(...)] for each node of [news]: new last children of [g]. *)
Definition append_children (g : Node) (news : list Node) : Node :=
  match g with
  | El t c d a s tx ks => El t c d a s tx (ks ++ news)
  end.

(** The update half of [selection.data(values)]: the i-th selected node,
    in document order, is rebound to the i-th value while values last.
    [bind_from] returns the values left over. *)
Fixpoint bind_from (sel : Node -> bool) (n : Node) (values : list Datum)
  : Node * list Datum :=
  match n with
  | El t c d a s tx ks =>
      let '(d', values1) :=
        if sel n then
          match values with
          | v :: rest => (BoundDatum v, rest)
          | [] => (d, [])
          end
        else (d, values) in
      let '(ks', values2) :=
        (fix each (ks : list Node) (values : list Datum)
           : list Node * list Datum :=
           match ks with
           | [] => ([], values)
           | k :: ks' =>
               let '(k', values') := bind_from sel k values in
               let '(r, values'') := each ks' values' in
               (k' :: r, values'')
           end) ks values1 in
      (El t c d' a s tx ks', values2)
  end.

Fixpoint bind_each (sel : Node -> bool) (ks : list Node) (values : list Datum)
  : list Node * list Datum :=
  match ks with
  | [] => ([], values)
  | k :: ks' =>
      let '(k', values') := bind_from sel k values in
      let '(r, values'') := bind_each sel ks' values' in
      (k' :: r, values'')
  end.

Definition bind_data (sel : Node -> bool) (values : list Datum) (g : Node)
  : Node :=
  match g with
  | El t c d a s tx ks => El t c d a s tx (fst (bind_each sel ks values))
  end.

(** [g.selectAll(selector).data(values).enter().append(...)] followed by
    the attribute setters [make]: the join is by index, so the values
    beyond the number of nodes already selected enter, and each entering
    value gets a new last child of [g]. *)
Definition join_enter_append (sel : Node -> bool) (values : list Datum)
    (make : Datum -> Node) (g : Node) : Node :=
  let selected := List.length (selectAll sel g) in
  append_children (bind_data sel values g) (map make (skipn selected values)).

(** ** The script *)

Record Margin := { top : Z; right : Z; bottom : Z; left : Z }.

Definition margin : Margin :=
  {| top := 60; right := 20; bottom := 80; left := 150 |}.

Definition width : Z := 1200 - left margin - right margin.

Definition rowHeight : Z := 20.

Definition highlightedStates : list string :=
  [ "Pennsylvania"; "Georgia"; "North Carolina"; "Wisconsin"; "Michigan";
    "Arizona"; "Nevada"; "Nebraska"; "New Hampshire"; "Ohio"; "Montana" ].

(** The initial value of the global [filters] (lines 17-21). *)
Definition initial_filters : FilterState :=
  {| all := true; post := true; postElectronic := true |}.

(** *** The row accessor (lines 24-37)

    [parseDate] is [d3.timeParse('%m/%d/%Y')]; the accessor is written
    over any parser that returns a date or [null]. *)

Definition parse_cell (parseDate : string -> option Date) (cell : string)
  : option Date :=
  if (cell =? "N/A")%string then None else parseDate cell.

Definition row_accessor (parseDate : string -> option Date) (d : Row)
  : Datum :=
  let recommended_mail_date :=
    parse_cell parseDate (col_Recommended_Mail_Date d) in
  let postmark_deadline :=
    parse_cell parseDate (col_Ballot_Postmark_Deadline d) in
  let receipt_deadline :=
    parse_cell parseDate (col_Ballot_Receipt_Deadline d) in
  let return_methods := col_Return_Methods d in
  {| state := col_State d;
     recommended_mail_date := recommended_mail_date;
     ballot_postmark_deadline := postmark_deadline;
     ballot_receipt_deadline := receipt_deadline;
     return_methods := return_methods |}.

(** *** The sort comparator (lines 41-45) *)

Definition compare_by_mail_date (a b : Datum) : Z :=
  match recommended_mail_date a with
  | None => 1
  | Some da =>
      match recommended_mail_date b with
      | None => -1
      | Some db => D3.ascending da db
      end
  end.

(** *** The scales (lines 59-72) *)

Definition minDate (data : list Datum) : option D3.DateOrInfinity :=
  D3.min data
    (fun d =>
       match recommended_mail_date d with
       | Some t => D3.Finite t
       | None => D3.Infinity
       end).

Definition startDate (data : list Datum) : option Date :=
  D3.timeDay_offset (minDate data) (-10).

Definition endDate (data : list Datum) : option Date :=
  D3.max data ballot_receipt_deadline.

Definition height (data : list Datum) : Z :=
  Z.of_nat (List.length data) * rowHeight.

Definition x_scale (data : list Datum) : TimeScale :=
  {| time_domain := (startDate data, endDate data);
     time_range := (0, width) |}.

Definition y_scale (data : list Datum) : BandScale :=
  {| band_domain := D3.ordinal_domain (map state data);
     band_range := (0, height data);
     band_padding := (2, 10) |}.

(** [y.domain(values)] *)
Definition set_band_domain (y : BandScale) (values : list string)
  : BandScale :=
  {| band_domain := D3.ordinal_domain values;
     band_range := band_range y;
     band_padding := band_padding y |}.

(** *** The y axis (lines 100-107 and 267-278) *)

(** The [tickFormat] callback of [yAxis]: both branches return the
    label. *)
Definition tickFormat (d : string) : string :=
  if JS.includes highlightedStates d then d else d.

(** What calling a left axis on an empty group creates: the domain path,
    then one tick group per domain value holding a line and a text, all
    three bound to the value.  Geometry attributes are not recorded. *)
Definition axis_tick (format : string -> string) (d : string) : Node :=
  El "g" ["tick"] (BoundState d) [] [] None
     [ El "line" [] (BoundState d) [] [] None [];
       El "text" [] (BoundState d) [] [] (Some (format d)) [] ].

Definition axis_nodes (domain : list string) (format : string -> string)
  : list Node :=
  El "path" ["domain"] Unbound [] [] None [] :: map (axis_tick format) domain.

Definition renderYAxis (y : BandScale) (svg : Node) : Node :=
  append_children svg
    [ El "g" ["y-axis"] Unbound [] [] None
         (axis_nodes (band_domain y) tickFormat) ].

(** [highlightedStates.includes(d)] on a bound value: only a string can
    be a member. *)
Definition includes_bound (l : list string) (d : Bound) : bool :=
  match d with
  | BoundState s => JS.includes l s
  | _ => false
  end.

(** [selection.classed(name, value)] on one class list. *)
Definition classed (name : string) (value : bool) (cls : list string)
  : list string :=
  if value then
    if existsb (String.eqb name) cls then cls else cls ++ [name]
  else filter (fun c => negb (String.eqb name c)) cls.

(** The two [classed] calls on every element that ['.y-axis .tick text']
    selects: a [text] with an ancestor of class [tick] that itself has an
    ancestor of class [y-axis].  [in_axis] and [in_tick] say what the
    ancestors of [n] provide. *)
Fixpoint style_ticks (hl : list string) (in_axis in_tick : bool) (n : Node)
  : Node :=
  match n with
  | El t c d a s tx ks =>
      let c' :=
        if in_tick && (t =? "text")%string then
          classed "normal-tick" (negb (includes_bound hl d))
            (classed "highlighted-tick" (includes_bound hl d) c)
        else c in
      let in_axis' := in_axis || has_class "y-axis" n in
      let in_tick' := in_tick || (in_axis && has_class "tick" n) in
      El t c' d a s tx
         ((fix each (ks : list Node) : list Node :=
             match ks with
             | [] => []
             | k :: ks' => style_ticks hl in_axis' in_tick' k :: each ks'
             end) ks)
  end.

Definition styleHighlightedStatesYAxis (svg : Node) (hl : list string)
  : Node :=
  style_ticks hl false false svg.

(** *** The filter callback of [applyFilters] (lines 119-129) *)

Definition keep (f : FilterState) (d : Datum) : bool :=
  if all f then true
  else if post f then (return_methods d =? "Post")%string
  else if postElectronic f then (return_methods d =? "Post, Electronic")%string
  else false.

Definition filteredData (f : FilterState) (data : list Datum) : list Datum :=
  filter (keep f) data.

(** *** [updateChart] (lines 151-200) *)

(** JavaScript truthiness of a field that holds a date or [null]. *)
Definition truthy (v : option Date) : bool :=
  match v with Some _ => true | None => false end.

Definition line_mark (x : TimeScale) (y : BandScale) (d : Datum) : Node :=
  El "line" ["line"] (BoundDatum d)
     [ ("x1", APixel (time_image x (recommended_mail_date d)));
       ("x2", APixel (time_image x (ballot_receipt_deadline d)));
       ("y1", APixel (band_center y (state d)));
       ("y2", APixel (band_center y (state d)));
       ("stroke", AString "gray") ]
     [] None [].

Definition dot_mark (x : TimeScale) (y : BandScale)
    (field : Datum -> option Date) (fill : string) (d : Datum) : Node :=
  El "circle" ["dot"] (BoundDatum d)
     [ ("cx", APixel (time_image x (field d)));
       ("cy", APixel (band_center y (state d)));
       ("r", ANumber 6) ]
     [ ("fill", fill) ] None [].

Definition mail_fill : string := "#FF6F61".
Definition postmark_fill : string := "#2171B5".
Definition receipt_fill : string := "#EF61F7".

Definition updateChart_svg (x : TimeScale) (y : BandScale)
    (filteredData : list Datum) (svg : Node) : Node :=
  let svg := remove_all (has_any_class ["dot"; "line"]) svg in
  let svg :=
    join_enter_append (has_class "line")
      (filter (fun d => truthy (recommended_mail_date d)
                        && truthy (ballot_receipt_deadline d)) filteredData)
      (line_mark x y) svg in
  let svg :=
    join_enter_append (has_class "dot-mail")
      (filter (fun d => truthy (recommended_mail_date d)) filteredData)
      (dot_mark x y recommended_mail_date mail_fill) svg in
  let svg :=
    join_enter_append (has_class "dot-postmark")
      (filter (fun d => truthy (ballot_postmark_deadline d)) filteredData)
      (dot_mark x y ballot_postmark_deadline postmark_fill) svg in
  join_enter_append (has_class "dot-receipt")
    (filter (fun d => truthy (ballot_receipt_deadline d)) filteredData)
    (dot_mark x y ballot_receipt_deadline receipt_fill) svg.

Definition updateChart (filteredData : list Datum) (p : Page) : Page :=
  {| data := data p;
     filters := filters p;
     x := x p;
     y := y p;
     svg := updateChart_svg (x p) (y p) filteredData (svg p) |}.

(** *** [applyFilters] (lines 117-148) *)

Definition applyFilters (p : Page) : Page :=
  let filteredData := filteredData (filters p) (data p) in
  let filteredStates := JS.new_Set (map state filteredData) in
  let svg := select_remove (has_class "y-axis") (svg p) in
  let y := set_band_domain (y p) filteredStates in
  let svg := renderYAxis y svg in
  let svg := styleHighlightedStatesYAxis svg highlightedStates in
  updateChart filteredData
    {| data := data p; filters := filters p; x := x p; y := y; svg := svg |}.

(** *** The legend (lines 202-232) *)

Definition legendData : list LegendEntry :=
  [ {| label := "Recommended Mail Date"; color := "#FF5733" |};
    {| label := "Ballot Postmark Deadline"; color := "#3F78E7" |};
    {| label := "Ballot Receipt Deadline"; color := "#EF61F7" |} ].

Fixpoint legend_circles (i : Z) (entries : list LegendEntry) : list Node :=
  match entries with
  | [] => []
  | d :: rest =>
      El "circle" [] (BoundLegend d)
         [ ("cx", ANumber (i * 200)); ("cy", ANumber 0); ("r", ANumber 6) ]
         [ ("fill", color d) ] None []
      :: legend_circles (i + 1) rest
  end.

Fixpoint legend_texts (i : Z) (entries : list LegendEntry) : list Node :=
  match entries with
  | [] => []
  | d :: rest =>
      El "text" [] (BoundLegend d)
         [ ("x", ANumber (i * 200 + 10)); ("y", ANumber 4) ]
         [ ("font-size", "14px"); ("fill", "#333") ] (Some (label d)) []
      :: legend_texts (i + 1) rest
  end.

Definition legend : Node :=
  El "g" ["legend"] Unbound [ ("transform", AString "translate(0, -20)") ]
     [] None
     (legend_circles 0 legendData ++ legend_texts 0 legendData).

(** *** The [then] callback (lines 38-261) *)

(** The group of the time axis; its tick elements (whose texts carry the
    class [x-axis]) are not recorded. *)
Definition x_axis_group : Node := El "g" [] Unbound [] [] None [].

Definition x_axis_caption : Node :=
  El "text" ["chart-axis-label"] Unbound [] [] (Some "Ballot Deadlines") [].

(** Lines 41-232: sort, scales, axes, legend. *)
Definition setup (loaded : list Datum) : Page :=
  let data := JS.sort compare_by_mail_date loaded in
  let x := x_scale data in
  let y := y_scale data in
  let svg := El "g" [] Unbound [] [] None [] in
  let svg := append_children svg [x_axis_group] in
  let svg := append_children svg [x_axis_caption] in
  let svg := renderYAxis y svg in
  let svg := styleHighlightedStatesYAxis svg highlightedStates in
  let svg := append_children svg [legend] in
  {| data := data; filters := initial_filters; x := x; y := y; svg := svg |}.

(** Line 234: the initial rendering. *)
Definition start (loaded : list Datum) : Page := applyFilters (setup loaded).

(** The page once [d3.csv] has resolved with the given rows. *)
Definition load (parseDate : string -> option Date) (rows : list Row)
  : Page :=
  start (map (row_accessor parseDate) rows).

(** A change event on one of the three radio inputs; [checked] is
    [this.checked] in the handler. *)
Inductive Event :=
| change_post (checked : bool)
| change_postElectronic (checked : bool)
| change_all (checked : bool).

Definition set_filters (f : FilterState) (p : Page) : Page :=
  {| data := data p; filters := f; x := x p; y := y p; svg := svg p |}.

(** Lines 237-261. *)
Definition handle (e : Event) (p : Page) : Page :=
  match e with
  | change_post checked =>
      let p :=
        if checked
        then set_filters
               {| all := false; post := true; postElectronic := false |} p
        else p in
      applyFilters p
  | change_postElectronic checked =>
      let p :=
        if checked
        then set_filters
               {| all := false; post := false; postElectronic := true |} p
        else p in
      applyFilters p
  | change_all checked =>
      let p :=
        if checked
        then set_filters
               {| all := true; post := false; postElectronic := false |} p
        else p in
      applyFilters p
  end.

(** The pages the program can be in: the initial rendering, then any
    sequence of change events. *)
Inductive reachable (loaded : list Datum) : Page -> Prop :=
| reach_start : reachable loaded (start loaded)
| reach_event (e : Event) (p : Page) :
    reachable loaded p -> reachable loaded (handle e p).

(** ** Vocabulary of the statements *)

(** The loops over children of the tree functions, named. *)
Fixpoint remove_each (sel : Node -> bool) (ks : list Node) : list Node :=
  match ks with
  | [] => []
  | k :: ks' =>
      if sel k then remove_each sel ks' else remove_all sel k :: remove_each sel ks'
  end.

Fixpoint remove_first_each (sel : Node -> bool) (ks : list Node)
  : option (list Node) :=
  match ks with
  | [] => None
  | k :: ks' =>
      if sel k then Some ks'
      else
        match remove_first sel k with
        | Some k' => Some (k' :: ks')
        | None =>
            match remove_first_each sel ks' with
            | Some r => Some (k :: r)
            | None => None
            end
        end
  end.

(** The selector ['.dot, .line'] of [updateChart]. *)
Definition is_mark : Node -> bool := has_any_class ["dot"; "line"].

(** The class names of the three dot selectors of [updateChart]. *)
Definition series_classes : list string :=
  ["dot-mail"; "dot-postmark"; "dot-receipt"].

(** No element below [g] carries one of the three series class names. *)
Definition no_series_class (g : Node) : Prop :=
  Forall (fun n => has_any_class series_classes n = false) (descendants g).

(** The elements ['.y-axis .tick text'] selects in the subtree of [n],
    with the same reading of [in_axis] and [in_tick] as [style_ticks]. *)
Fixpoint tick_texts (in_axis in_tick : bool) (n : Node) : list Node :=
  (if in_tick && (tag n =? "text")%string then [n] else [])
  ++ (fix each (ks : list Node) : list Node :=
        match ks with
        | [] => []
        | k :: ks' =>
            tick_texts (in_axis || has_class "y-axis" n)
                       (in_tick || (in_axis && has_class "tick" n)) k
            ++ each ks'
        end) (kids n).

(** The y axis as it stands after [renderYAxis] and
    [styleHighlightedStatesYAxis]. *)
Definition tick_class (s : string) : string :=
  if JS.includes highlightedStates s then "highlighted-tick" else "normal-tick".

Definition styled_label (s : string) : Node :=
  El "text" [tick_class s] (BoundState s) [] [] (Some s) [].

Definition styled_tick (s : string) : Node :=
  El "g" ["tick"] (BoundState s) [] [] None
     [ El "line" [] (BoundState s) [] [] None []; styled_label s ].

Definition styled_axis (domain : list string) : Node :=
  El "g" ["y-axis"] Unbound [] [] None
     (El "path" ["domain"] Unbound [] [] None [] :: map styled_tick domain).

(** The marks one call of [updateChart] draws, in document order. *)
Definition drawn_lines (x : TimeScale) (y : BandScale) (fd : list Datum)
  : list Node :=
  map (line_mark x y)
      (filter (fun d => truthy (recommended_mail_date d)
                        && truthy (ballot_receipt_deadline d)) fd).

Definition drawn_dots (x : TimeScale) (y : BandScale) (fd : list Datum)
  : list Node :=
  map (dot_mark x y recommended_mail_date mail_fill)
      (filter (fun d => truthy (recommended_mail_date d)) fd)
  ++ map (dot_mark x y ballot_postmark_deadline postmark_fill)
         (filter (fun d => truthy (ballot_postmark_deadline d)) fd)
  ++ map (dot_mark x y ballot_receipt_deadline receipt_fill)
         (filter (fun d => truthy (ballot_receipt_deadline d)) fd).

(** The chart group without its y axis, and the chart group after a
    complete redraw. *)
Definition frame_with (marks : list Node) : Node :=
  El "g" [] Unbound [] [] None
     (x_axis_group :: x_axis_caption :: legend :: marks).

Definition rendered_svg (x : TimeScale) (y : BandScale) (fd : list Datum)
  : Node :=
  frame_with
    (styled_axis (band_domain y) :: drawn_lines x y fd ++ drawn_dots x y fd).

Definition bound_to (r : Datum) (n : Node) : bool :=
  match datum n with
  | BoundDatum d => if Datum_eq_dec d r then true else false
  | _ => false
  end.

(** Number of non-null fields among the three dates of a record. *)
Definition date_count (r : Datum) : nat :=
  (if truthy (recommended_mail_date r) then 1 else 0)
  + (if truthy (ballot_postmark_deadline r) then 1 else 0)
  + (if truthy (ballot_receipt_deadline r) then 1 else 0).

Definition exactly_one (f : FilterState) : bool :=
  match all f, post f, postElectronic f with
  | true, false, false | false, true, false | false, false, true => true
  | _, _, _ => false
  end.

Definition event_checked (e : Event) : bool :=
  match e with
  | change_post c | change_postElectronic c | change_all c => c
  end.

(** The order the sort is meant to establish on [recommended_mail_date]:
    dates ascending, [null] after every date. *)
Definition mail_date_order (a b : Datum) : Prop :=
  match recommended_mail_date a, recommended_mail_date b with
  | Some da, Some db => da <= db
  | Some _, None => True
  | None, None => True
  | None, Some _ => False
  end.

(** [t] is the least non-null [recommended_mail_date] of [records]. *)
Definition earliest_mail_date (records : list Datum) (t : Date) : Prop :=
  (exists d, In d records /\ recommended_mail_date d = Some t)
  /\ forall d t', In d records -> recommended_mail_date d = Some t' -> t <= t'.

(** [t] is the greatest non-null [ballot_receipt_deadline] of [records]. *)
Definition latest_receipt_deadline (records : list Datum) (t : Date) : Prop :=
  (exists d, In d records /\ ballot_receipt_deadline d = Some t)
  /\ forall d t', In d records -> ballot_receipt_deadline d = Some t' -> t' <= t.

(** The layout "%m/%d/%Y" as d3 reads it, on code units: three numeric
    fields separated by "/", a numeric field being optional white space
    followed by one or more digits and no longer than its width (2, 2 and
    4 code units). *)
Definition numeric_field (width : nat) (f : list N) : Prop :=
  exists blanks digits,
    f = blanks ++ digits
    /\ forallb D3.is_space blanks = true
    /\ forallb D3.is_digit digits = true
    /\ digits <> []
    /\ (List.length f <= width)%nat.

(** The next code unit, if any, ends a run of digits. *)
Definition ends_digits (rest : list N) : Prop :=
  match rest with
  | [] => True
  | c :: _ => D3.is_digit c = false
  end.

Definition layout_mdY (cell : list N) : Prop :=
  exists month day year,
    cell = month ++ [D3.slash] ++ day ++ [D3.slash] ++ year
    /\ numeric_field 2 month
    /\ numeric_field 2 day
    /\ numeric_field 4 year.

(** The cell has the layout. *)
Definition conforms_mdY (cell : string) : Prop :=
  layout_mdY (D3.code_units cell).

(** The number a run of digits shows, in base 10. *)
Fixpoint digits_number (acc : Z) (digits : list N) : Z :=
  match digits with
  | [] => acc
  | c :: rest => digits_number (10 * acc + D3.digit_value c) rest
  end.

(** The numeric field [f] of at most [width] code units shows [n]. *)
Definition shows (width : nat) (f : list N) (n : Z) : Prop :=
  exists blanks digits,
    f = blanks ++ digits
    /\ forallb D3.is_space blanks = true
    /\ forallb D3.is_digit digits = true
    /\ digits <> []
    /\ (List.length f <= width)%nat
    /\ digits_number 0 digits = n.

(** The code units are [month/day/year] written in the layout. *)
Definition written_units (cell : list N) (month day year : Z) : Prop :=
  exists fm fd fy,
    cell = fm ++ [D3.slash] ++ fd ++ [D3.slash] ++ fy
    /\ shows 2 fm month /\ shows 2 fd day /\ shows 4 fy year.

(** The cell is written [month/day/year] in the layout. *)
Definition written_mdY (cell : string) (month day year : Z) : Prop :=
  written_units (D3.code_units cell) month day year.

(** The cell is written in the layout with a month of the year and a day
    of a month: the dates of the format "%m/%d/%Y" in the usual sense. *)
Definition calendar_mdY (cell : string) : Prop :=
  exists month day year,
    written_mdY cell month day year
    /\ 1 <= month <= 12 /\ 1 <= day <= 31.

(** A date cell that is neither the sentinel nor of the layout. *)
Definition unreadable (cell : string) : Prop :=
  cell <> "N/A" /\ ~ conforms_mdY cell.

(** [cell'] is [cell], or is the sentinel where [cell] is unreadable. *)
Definition masked_cell (cell cell' : string) : Prop :=
  cell = cell' \/ (unreadable cell /\ cell' = "N/A").

(** The page that shows the loaded records under the filter flags [f]:
    sorted records, scales of the sorted records with the band domain of
    the filtered ones, and the chart group of a complete redraw. *)
Definition page_of (loaded : list Datum) (f : FilterState) : Page :=
  let data := JS.sort compare_by_mail_date loaded in
  let fd := filteredData f data in
  let y := set_band_domain (y_scale data) (JS.new_Set (map state fd)) in
  {| data := data;
     filters := f;
     x := x_scale data;
     y := y;
     svg := rendered_svg (x_scale data) y fd |}.

(** ** Sample data *)

Definition sample_rows : list Row :=
  [ {| col_State := "Texas";
       col_Recommended_Mail_Date := "N/A";
       col_Ballot_Postmark_Deadline := "11/05/2024";
       col_Ballot_Receipt_Deadline := "11/05/2024";
       col_Return_Methods := "Post" |};
    {| col_State := "Ohio";
       col_Recommended_Mail_Date := "09/20/2024";
       col_Ballot_Postmark_Deadline := "N/A";
       col_Ballot_Receipt_Deadline := "11/04/2024";
       col_Return_Methods := "Post, Electronic" |};
    {| col_State := "Guam";
       col_Recommended_Mail_Date := "N/A";
       col_Ballot_Postmark_Deadline := "N/A";
       col_Ballot_Receipt_Deadline := "N/A";
       col_Return_Methods := "Post" |};
    {| col_State := "Wisconsin";
       col_Recommended_Mail_Date := "09/10/2024";
       col_Ballot_Postmark_Deadline := "11/04/2024";
       col_Ballot_Receipt_Deadline := "N/A";
       col_Return_Methods := "Post, Electronic, Fax" |} ].

Definition sample_data : list Datum :=
  map (row_accessor D3.timeParse_mdY) sample_rows.

(** A row whose receipt deadline is written in another format, and the
    same row with the sentinel in that cell. *)
Definition iso_row : Row :=
  {| col_State := "Utah";
     col_Recommended_Mail_Date := "10/01/2024";
     col_Ballot_Postmark_Deadline := "11/04/2024";
     col_Ballot_Receipt_Deadline := "2024-11-12";
     col_Return_Methods := "Post" |}.

Definition iso_row_na : Row :=
  {| col_State := "Utah";
     col_Recommended_Mail_Date := "10/01/2024";
     col_Ballot_Postmark_Deadline := "11/04/2024";
     col_Ballot_Receipt_Deadline := "N/A";
     col_Return_Methods := "Post" |}.

(** A file whose mail dates are all different, with one record without
    dates: every engine sorts it to Iowa, Maine, Utah, Ohio, Guam. *)
Definition dated_rows : list Row :=
  [ {| col_State := "Maine";
       col_Recommended_Mail_Date := "09/20/2024";
       col_Ballot_Postmark_Deadline := "N/A";
       col_Ballot_Receipt_Deadline := "11/05/2024";
       col_Return_Methods := "Post" |};
    {| col_State := "Guam";
       col_Recommended_Mail_Date := "N/A";
       col_Ballot_Postmark_Deadline := "N/A";
       col_Ballot_Receipt_Deadline := "N/A";
       col_Return_Methods := "Post" |};
    {| col_State := "Utah";
       col_Recommended_Mail_Date := "09/25/2024";
       col_Ballot_Postmark_Deadline := "11/04/2024";
       col_Ballot_Receipt_Deadline := "11/12/2024";
       col_Return_Methods := "Post, Electronic" |};
    {| col_State := "Iowa";
       col_Recommended_Mail_Date := "09/10/2024";
       col_Ballot_Postmark_Deadline := "11/05/2024";
       col_Ballot_Receipt_Deadline := "11/12/2024";
       col_Return_Methods := "Post" |};
    {| col_State := "Ohio";
       col_Recommended_Mail_Date := "10/01/2024";
       col_Ballot_Postmark_Deadline := "N/A";
       col_Ballot_Receipt_Deadline := "N/A";
       col_Return_Methods := "Post" |} ].

Definition dated_data : list Datum :=
  map (row_accessor D3.timeParse_mdY) dated_rows.

(** A row whose mail date has month 13 and day 45, and the same row with
    the sentinel in that cell. *)
Definition overflow_row : Row :=
  {| col_State := "Utah";
     col_Recommended_Mail_Date := "13/45/2024";
     col_Ballot_Postmark_Deadline := "N/A";
     col_Ballot_Receipt_Deadline := "N/A";
     col_Return_Methods := "Post" |}.

Definition overflow_row_na : Row :=
  {| col_State := "Utah";
     col_Recommended_Mail_Date := "N/A";
     col_Ballot_Postmark_Deadline := "N/A";
     col_Ballot_Receipt_Deadline := "N/A";
     col_Return_Methods := "Post" |}.

(** * Properties *)

(** ** Trees *)

Lemma Node_kids_ind (P : Node -> Prop) :
  (forall t c d a s tx ks, Forall P ks -> P (El t c d a s tx ks)) ->
  forall n, P n.
Proof.
  intros step. fix IH 1. intros [t c d a s tx ks]. apply step.
  induction ks as [|k ks IHks]; constructor; [apply IH | exact IHks].
Qed.

Lemma subtree_eq n : subtree n = n :: flat_map subtree (kids n).
Proof.
  destruct n as [t c d a s tx ks]. reflexivity.
Qed.

Lemma remove_all_eq sel t c d a s tx ks :
  remove_all sel (El t c d a s tx ks) = El t c d a s tx (remove_each sel ks).
Proof.
  simpl. f_equal.
  induction ks as [|k ks IHks]; simpl; [reflexivity | now rewrite IHks].
Qed.

Lemma remove_first_eq sel t c d a s tx ks :
  remove_first sel (El t c d a s tx ks) =
  match remove_first_each sel ks with
  | Some ks' => Some (El t c d a s tx ks')
  | None => None
  end.
Proof.
  simpl.
  match goal with
  | |- match ?l with _ => _ end = match ?r with _ => _ end =>
      replace l with r; [reflexivity |]
  end.
  induction ks as [|k ks IHks]; simpl; [reflexivity | now rewrite IHks].
Qed.

(** ** Strings and sets of strings *)

Lemma existsb_eqb_In (v : string) (l : list string) :
  existsb (String.eqb v) l = true <-> In v l.
Proof.
  rewrite existsb_exists. split.
  - intros [w [Hin Heq]]. apply String.eqb_eq in Heq. now subst.
  - intros Hin. exists v. split; [exact Hin | apply String.eqb_refl].
Qed.

Lemma add_unseen_In (s : string) (values seen : list string) :
  In s (JS.add_unseen seen values) <-> In s values /\ ~ In s seen.
Proof.
  revert seen. induction values as [|v rest IH]; intros seen; simpl.
  - tauto.
  - destruct (existsb (String.eqb v) seen) eqn:E.
    + apply existsb_eqb_In in E. rewrite IH. split.
      * tauto.
      * intros [[->|Hin] Hn]; tauto.
    + assert (~ In v seen) as Hv
        by (rewrite <- existsb_eqb_In, E; discriminate).
      simpl. rewrite IH. simpl. split.
      * intros [->|[Hin Hn]]; tauto.
      * intros [[->|Hin] Hn]; [now left|].
        destruct (string_dec v s) as [->|Hne]; [now left|right; tauto].
Qed.

Lemma add_unseen_NoDup (values seen : list string) :
  NoDup (JS.add_unseen seen values).
Proof.
  revert seen. induction values as [|v rest IH]; intros seen; simpl.
  - constructor.
  - destruct (existsb (String.eqb v) seen); [apply IH|].
    constructor; [|apply IH].
    rewrite add_unseen_In. simpl. tauto.
Qed.

Lemma add_unseen_idempotent (values seen : list string) :
  JS.add_unseen seen (JS.add_unseen seen values) = JS.add_unseen seen values.
Proof.
  revert seen. induction values as [|v rest IH]; intros seen; simpl.
  - reflexivity.
  - destruct (existsb (String.eqb v) seen) eqn:E; [apply IH|].
    simpl. rewrite E. now rewrite IH.
Qed.

Lemma new_Set_In (s : string) (values : list string) :
  In s (JS.new_Set values) <-> In s values.
Proof. unfold JS.new_Set. rewrite add_unseen_In. simpl. tauto. Qed.

Lemma new_Set_NoDup (values : list string) : NoDup (JS.new_Set values).
Proof. apply add_unseen_NoDup. Qed.

Lemma ordinal_domain_new_Set (values : list string) :
  D3.ordinal_domain (JS.new_Set values) = JS.new_Set values.
Proof. apply add_unseen_idempotent. Qed.

(** ** The filter engine *)

Lemma applyFilters_data p : data (applyFilters p) = data p.
Proof. reflexivity. Qed.

Lemma applyFilters_filters p : filters (applyFilters p) = filters p.
Proof. reflexivity. Qed.

Lemma applyFilters_x p : x (applyFilters p) = x p.
Proof. reflexivity. Qed.

Lemma handle_data e p : data (handle e p) = data p.
Proof. destruct e as [[|]|[|]|[|]]; reflexivity. Qed.

Lemma handle_x e p : x (handle e p) = x p.
Proof. destruct e as [[|]|[|]|[|]]; reflexivity. Qed.

Lemma handle_filters_checked e p :
  event_checked e = true -> exactly_one (filters (handle e p)) = true.
Proof. destruct e as [[|]|[|]|[|]]; simpl; intros H; now try discriminate. Qed.

Lemma handle_filters_unchecked e p :
  event_checked e = false -> filters (handle e p) = filters p.
Proof. destruct e as [[|]|[|]|[|]]; simpl; intros H; now try discriminate. Qed.

Lemma keep_all f d : all f = true -> keep f d = true.
Proof. unfold keep. now intros ->. Qed.

Lemma filter_all_true {A} (f : A -> bool) (l : list A) :
  (forall a, f a = true) -> filter f l = l.
Proof.
  intros H. induction l as [|a l IH]; simpl; [reflexivity|].
  now rewrite H, IH.
Qed.

Lemma filter_all_false {A} (f : A -> bool) (l : list A) :
  (forall a, f a = false) -> filter f l = [].
Proof.
  intros H. induction l as [|a l IH]; simpl; [reflexivity|].
  now rewrite H.
Qed.

Lemma eqb_string_dec (s1 s2 : string) :
  (s1 =? s2)%string = if string_dec s1 s2 then true else false.
Proof.
  destruct (string_dec s1 s2) as [->|Hne].
  - apply String.eqb_refl.
  - now apply String.eqb_neq.
Qed.

(** C1.  The filter callback of [applyFilters] goes by priority: with
    [all] set every record is kept; otherwise with [post] set exactly the
    records whose [return_methods] is the string "Post"; otherwise with
    [postElectronic] set exactly those whose [return_methods] is the
    string "Post, Electronic"; otherwise none.  Selecting [post] and then
    [all] gives back the whole collection. *)
Theorem filter_by_priority (f : FilterState) (records : list Datum) :
  (all f = true -> filteredData f records = records)
  /\ (all f = false -> post f = true ->
      filteredData f records =
        filter (fun d => if string_dec (return_methods d) "Post"
                         then true else false) records
      /\ forall d, In d (filteredData f records) <->
                   In d records /\ return_methods d = "Post")
  /\ (all f = false -> post f = false -> postElectronic f = true ->
      filteredData f records =
        filter (fun d => if string_dec (return_methods d) "Post, Electronic"
                         then true else false) records
      /\ forall d, In d (filteredData f records) <->
                   In d records /\ return_methods d = "Post, Electronic")
  /\ (all f = false -> post f = false -> postElectronic f = false ->
      filteredData f records = [])
  /\ (forall p,
        let p' := handle (change_all true) (handle (change_post true) p) in
        filteredData (filters p') (data p') = data p).
Proof.
  unfold filteredData.
  split; [|split; [|split; [|split]]].
  - intros Ha. apply filter_all_true. intros d. now apply keep_all.
  - intros Ha Hp. split.
    + apply filter_ext. intros d. unfold keep. rewrite Ha, Hp.
      apply eqb_string_dec.
    + intros d. rewrite filter_In. unfold keep. rewrite Ha, Hp.
      now rewrite String.eqb_eq.
  - intros Ha Hp He. split.
    + apply filter_ext. intros d. unfold keep. rewrite Ha, Hp, He.
      apply eqb_string_dec.
    + intros d. rewrite filter_In. unfold keep. rewrite Ha, Hp, He.
      now rewrite String.eqb_eq.
  - intros Ha Hp He. apply filter_all_false. intros d. unfold keep.
    now rewrite Ha, Hp, He.
  - intros p. simpl. apply filter_all_true. reflexivity.
Qed.

Lemma filter_by_priority_witness :
  let post_mode := {| all := false; post := true; postElectronic := false |} in
  map state (filteredData post_mode sample_data) = ["Texas"; "Guam"]
  /\ forall d, In d (filteredData post_mode sample_data) <->
               In d sample_data /\ return_methods d = "Post".
Proof.
  split; [reflexivity|].
  apply (proj1 (proj2 (filter_by_priority
                         {| all := false; post := true;
                            postElectronic := false |} sample_data)));
    reflexivity.
Defined.

(** Exact string equality: a different case, a trailing blank or a longer
    value is not "Post". *)
Example keep_is_exact :
  let post_mode := {| all := false; post := true; postElectronic := false |} in
  let with_methods m :=
    {| state := "Texas"; recommended_mail_date := None;
       ballot_postmark_deadline := None; ballot_receipt_deadline := None;
       return_methods := m |} in
  map (fun m => keep post_mode (with_methods m))
      ["Post"; "post"; "Post "; " Post"; "Post, Electronic"; ""]
  = [true; false; false; false; false; false].
Proof. reflexivity. Qed.

(** ** The filter state *)

Lemma start_filters loaded : filters (start loaded) = initial_filters.
Proof. reflexivity. Qed.

(** C2, as the claim states it, fails on the page the script first renders:
    the global [filters] starts with all three flags set, which is neither
    exactly one flag nor the [all] mode of the handlers. *)
Lemma filters_start_not_exclusive :
  reachable sample_data (start sample_data)
  /\ exactly_one (filters (start sample_data)) = false
  /\ filters (start sample_data)
     <> {| all := true; post := false; postElectronic := false |}.
Proof.
  split; [constructor|]. split; [reflexivity|]. discriminate.
Qed.

(** C2, amended.  The filter flags start with all three set, which the
    filter treats as the [all] mode: every record passes.  A change
    handler whose input is checked sets the flags to the mode of that
    input alone: [post] for "#post", [postElectronic] for
    "#postElectronic", [all] for "#all"; a handler whose input is not
    checked leaves the flags as they are.  So on every page the program
    reaches the flags are either the initial value or have exactly one
    flag set, and every handler keeps exactly one flag set once that
    holds. *)
Theorem filters_exclusive_after_selection (loaded : list Datum) (p : Page) :
  reachable loaded p ->
  filters (start loaded)
    = {| all := true; post := true; postElectronic := true |}
  /\ filters (handle (change_post true) p)
     = {| all := false; post := true; postElectronic := false |}
  /\ filters (handle (change_postElectronic true) p)
     = {| all := false; post := false; postElectronic := true |}
  /\ filters (handle (change_all true) p)
     = {| all := true; post := false; postElectronic := false |}
  /\ filters (handle (change_post false) p) = filters p
  /\ filters (handle (change_postElectronic false) p) = filters p
  /\ filters (handle (change_all false) p) = filters p
  /\ (filters p = {| all := true; post := true; postElectronic := true |}
      \/ exactly_one (filters p) = true)
  /\ (forall e, exactly_one (filters p) = true ->
                exactly_one (filters (handle e p)) = true)
  /\ (forall e, event_checked e = true ->
                exactly_one (filters (handle e p)) = true)
  /\ (forall records,
        filteredData (filters (start loaded)) records = records).
Proof.
  intros Hreach. repeat (split; [reflexivity|]). split; [|split; [|split]].
  - induction Hreach as [|e p Hreach IH].
    + left. reflexivity.
    + destruct (event_checked e) eqn:Hc.
      * right. now apply handle_filters_checked.
      * rewrite (handle_filters_unchecked e p Hc). exact IH.
  - intros e Hone. destruct (event_checked e) eqn:Hc.
    + now apply handle_filters_checked.
    + now rewrite (handle_filters_unchecked e p Hc).
  - intros e. apply handle_filters_checked.
  - intros records. apply filter_all_true. intros d. now apply keep_all.
Qed.

Lemma filters_exclusive_after_selection_witness :
  let p := handle (change_post true) (start sample_data) in
  reachable sample_data p
  /\ filters p = {| all := false; post := true; postElectronic := false |}
  /\ exactly_one (filters p) = true
  /\ exactly_one (filters (handle (change_all false) p)) = true.
Proof.
  assert (reachable sample_data
            (handle (change_post true) (start sample_data))) as Hreach
    by (constructor; constructor).
  split; [exact Hreach|]. split; [reflexivity|]. split; [reflexivity|].
  destruct (filters_exclusive_after_selection sample_data _ Hreach)
    as [_ [_ [_ [_ [_ [_ [_ [_ [Hkeep _]]]]]]]]].
  apply Hkeep. reflexivity.
Defined.

(** ** What [applyFilters] leaves alone *)

(** C8.  [applyFilters] leaves the records, the filter flags and the time
    scale as they are; of the band scale it keeps range and padding and
    sets the domain to the distinct [state] values of the filtered
    records, in order of first appearance. *)
Theorem applyFilters_frame (p : Page) :
  let fd := filteredData (filters p) (data p) in
  data (applyFilters p) = data p
  /\ filters (applyFilters p) = filters p
  /\ x (applyFilters p) = x p
  /\ band_range (y (applyFilters p)) = band_range (y p)
  /\ band_padding (y (applyFilters p)) = band_padding (y p)
  /\ band_domain (y (applyFilters p)) = JS.new_Set (map state fd)
  /\ NoDup (band_domain (y (applyFilters p)))
  /\ (forall s, In s (band_domain (y (applyFilters p))) <->
                exists d, In d fd /\ state d = s).
Proof.
  assert (band_domain (y (applyFilters p)) =
          JS.new_Set (map state (filteredData (filters p) (data p)))) as Hdom.
  { simpl. apply ordinal_domain_new_Set. }
  cbv zeta. repeat (split; [reflexivity|]).
  split; [exact Hdom|]. rewrite Hdom. split; [apply new_Set_NoDup|].
  intros s. rewrite new_Set_In, in_map_iff.
  split; intros [d [H1 H2]]; exists d; tauto.
Qed.

Lemma applyFilters_frame_witness :
  let p := set_filters {| all := false; post := true; postElectronic := false |}
             (start sample_data) in
  In "Texas" (band_domain (y (applyFilters p)))
  /\ exists d, In d (filteredData (filters p) (data p)) /\ state d = "Texas".
Proof.
  cbv zeta.
  assert (In "Texas"
            (band_domain
               (y (applyFilters
                     (set_filters
                        {| all := false; post := true; postElectronic := false |}
                        (start sample_data)))))) as Hin
    by (vm_compute; right; left; reflexivity).
  split; [exact Hin|].
  destruct (applyFilters_frame
              (set_filters
                 {| all := false; post := true; postElectronic := false |}
                 (start sample_data)))
    as [_ [_ [_ [_ [_ [_ [_ Hiff]]]]]]].
  exact (proj1 (Hiff "Texas") Hin).
Defined.

Example applyFilters_frame_sample :
  let p := set_filters {| all := false; post := true; postElectronic := false |}
             (start sample_data) in
  band_domain (y (applyFilters p)) = ["Guam"; "Texas"]
  /\ band_domain (y p) = ["Wisconsin"; "Ohio"; "Guam"; "Texas"]
  /\ time_domain (x (applyFilters p)) = time_domain (x (start sample_data)).
Proof. vm_compute. repeat split. Qed.

(** ** The d3 date parser *)

Lemma digit_not_space c : D3.is_digit c = true -> D3.is_space c = false.
Proof.
  unfold D3.is_digit, D3.is_space. intros Hd.
  apply Bool.andb_true_iff in Hd. destruct Hd as [Hlo Hhi].
  apply N.leb_le in Hlo. apply N.leb_le in Hhi.
  rewrite (proj2 (N.leb_gt c 13)) by lia.
  rewrite (proj2 (N.leb_gt 8192 c)) by lia.
  rewrite !(proj2 (N.eqb_neq c _)) by lia.
  now rewrite Bool.andb_false_r.
Qed.

Lemma shows_field width f v : shows width f v -> numeric_field width f.
Proof.
  intros [blanks [digits [Hf [Hb [Hd [Hne [Hlen _]]]]]]].
  exists blanks, digits. tauto.
Qed.

Lemma field_shows width f :
  numeric_field width f -> exists v, shows width f v.
Proof.
  intros [blanks [digits [Hf [Hb [Hd [Hne Hlen]]]]]].
  exists (digits_number 0 digits), blanks, digits. tauto.
Qed.

Lemma written_layout cell month day year :
  written_units cell month day year -> layout_mdY cell.
Proof.
  intros [fm [fd [fy [Hcell [Hm [Hd Hy]]]]]].
  exists fm, fd, fy. apply shows_field in Hm, Hd, Hy. tauto.
Qed.

Lemma layout_written cell :
  layout_mdY cell -> exists month day year, written_units cell month day year.
Proof.
  intros [fm [fd [fy [Hcell [Hm [Hd Hy]]]]]].
  apply field_shows in Hm, Hd, Hy.
  destruct Hm as [month Hm], Hd as [day Hd], Hy as [year Hy].
  exists month, day, year, fm, fd, fy. tauto.
Qed.

Lemma take_digits_value digits :
  forall width rest acc n,
    forallb D3.is_digit digits = true ->
    (List.length digits <= width)%nat ->
    ends_digits rest ->
    D3.take_digits width (digits ++ rest) acc n =
    (digits_number acc digits, (n + List.length digits)%nat, rest).
Proof.
  induction digits as [|c digits IH]; intros width rest acc n Hall Hlen Hend.
  - cbn [app digits_number List.length]. rewrite Nat.add_0_r.
    destruct width as [|w]; [reflexivity|].
    destruct rest as [|c r]; [reflexivity|].
    cbn [ends_digits] in Hend. cbn [D3.take_digits]. now rewrite Hend.
  - cbn [forallb] in Hall. apply Bool.andb_true_iff in Hall.
    destruct Hall as [Hc Hall].
    destruct width as [|w]; [cbn [List.length] in Hlen; lia|].
    cbn [List.length] in Hlen.
    cbn [app D3.take_digits digits_number List.length]. rewrite Hc.
    rewrite (IH w rest _ (S n) Hall) by (lia || exact Hend).
    f_equal. f_equal. lia.
Qed.

Lemma number_re_value width f rest v :
  shows width f v -> ends_digits rest ->
  D3.number_re width (f ++ rest) = Some (v, rest).
Proof.
  intros [blanks [digits [-> [Hb [Hd [Hne [Hlen <-]]]]]]] Hend.
  rewrite length_app in Hlen. rewrite <- app_assoc.
  revert width Hlen. induction blanks as [|c blanks IH]; intros width Hlen.
  - cbn [app List.length] in *.
    destruct digits as [|c digits]; [now contradiction Hne|].
    destruct width as [|w]; [cbn [List.length] in Hlen; lia|].
    pose proof (take_digits_value (c :: digits) (S w) rest 0 0 Hd Hlen Hend)
      as Hv.
    cbn [forallb] in Hd. apply Bool.andb_true_iff in Hd.
    destruct Hd as [Hc _].
    change ((c :: digits) ++ rest) with (c :: (digits ++ rest)) in *.
    cbn [D3.number_re]. rewrite (digit_not_space c Hc), Hv. reflexivity.
  - cbn [forallb] in Hb. apply Bool.andb_true_iff in Hb.
    destruct Hb as [Hc Hb].
    destruct width as [|w]; [cbn [List.length] in Hlen; lia|].
    cbn [List.length] in Hlen.
    cbn [app D3.number_re]. rewrite Hc. apply (IH Hb). lia.
Qed.

Lemma take_digits_reads width s acc n v n' rest :
  D3.take_digits width s acc n = (v, n', rest) ->
  exists digits,
    s = digits ++ rest
    /\ forallb D3.is_digit digits = true
    /\ n' = (n + List.length digits)%nat
    /\ (List.length digits <= width)%nat
    /\ v = digits_number acc digits.
Proof.
  revert s acc n. induction width as [|w IH]; intros s acc n H.
  - cbn [D3.take_digits] in H. injection H as <- <- <-. exists [].
    cbn. repeat split; lia.
  - destruct s as [|c s'].
    + cbn [D3.take_digits] in H. injection H as <- <- <-. exists [].
      cbn. repeat split; lia.
    + cbn [D3.take_digits] in H. destruct (D3.is_digit c) eqn:Hc.
      * apply IH in H. destruct H as [digits [-> [Hall [-> [Hlen ->]]]]].
        exists (c :: digits).
        cbn [app forallb List.length digits_number].
        rewrite Hc, Hall. repeat split; lia.
      * injection H as <- <- <-. exists []. cbn. repeat split; lia.
Qed.

Lemma number_re_reads width s v rest :
  D3.number_re width s = Some (v, rest) ->
  exists f, s = f ++ rest /\ shows width f v.
Proof.
  revert s. induction width as [|w IH]; intros s H.
  - destruct s; discriminate.
  - destruct s as [|c s']; [discriminate|].
    cbn [D3.number_re] in H. destruct (D3.is_space c) eqn:Hc.
    + apply IH in H.
      destruct H as [f [-> [blanks [digits [-> [Hb [Hd [Hne [Hlen Hv]]]]]]]]].
      exists (c :: (blanks ++ digits)). split; [reflexivity|].
      exists (c :: blanks), digits.
      cbn [app forallb List.length] in *. rewrite Hc, Hb.
      repeat split; auto. lia.
    + destruct (D3.take_digits (S w) (c :: s') 0 0) as [[v' n'] rest']
        eqn:Htake.
      destruct n' as [|n']; [discriminate|]. injection H as <- <-.
      apply take_digits_reads in Htake.
      destruct Htake as [digits [Heq [Hall [Hn [Hlen Hv]]]]].
      exists digits. split; [exact Heq|].
      exists [], digits. cbn [app]. repeat split; auto.
      intros ->. cbn [List.length] in Hn. lia.
Qed.

(** Code units written in the layout are read as the date the [Date]
    constructor makes of the three numbers, whatever they are. *)
Lemma timeParse_units_written cell month day year :
  written_units cell month day year ->
  D3.timeParse_units cell = Some (D3.localDate year (month - 1) day).
Proof.
  intros [fm [fd [fy [-> [Hm [Hd Hy]]]]]]. unfold D3.timeParse_units.
  rewrite (number_re_value 2 fm ([D3.slash] ++ fd ++ [D3.slash] ++ fy)
             month Hm) by reflexivity.
  cbn [app]. rewrite N.eqb_refl.
  rewrite (number_re_value 2 fd (D3.slash :: fy) day Hd) by reflexivity.
  rewrite N.eqb_refl.
  rewrite <- (app_nil_r fy).
  rewrite (number_re_value 4 fy [] year Hy) by exact I.
  reflexivity.
Qed.

Lemma timeParse_units_reads cell t :
  D3.timeParse_units cell = Some t ->
  exists month day year,
    written_units cell month day year
    /\ t = D3.localDate year (month - 1) day.
Proof.
  unfold D3.timeParse_units. intros H.
  destruct (D3.number_re 2 cell) as [[month [|c1 s1]]|] eqn:E1;
    try discriminate.
  destruct (N.eqb_spec c1 D3.slash) as [->|_]; [|discriminate].
  destruct (D3.number_re 2 s1) as [[day [|c2 s2]]|] eqn:E2;
    try discriminate.
  destruct (N.eqb_spec c2 D3.slash) as [->|_]; [|discriminate].
  destruct (D3.number_re 4 s2) as [[year [|c3 s3]]|] eqn:E3;
    try discriminate.
  injection H as <-.
  apply number_re_reads in E1, E2, E3.
  destruct E1 as [fm [-> Hm]], E2 as [fd [-> Hd]], E3 as [fy [-> Hy]].
  exists month, day, year. split; [|reflexivity].
  exists fm, fd, fy. split; [|tauto].
  now rewrite app_nil_r.
Qed.

(** The parser accepts exactly the code units of the layout. *)
Lemma timeParse_units_accepts (cell : list N) :
  D3.timeParse_units cell <> None <-> layout_mdY cell.
Proof.
  split.
  - intros H. destruct (D3.timeParse_units cell) as [t|] eqn:E;
      [|now contradiction H].
    apply timeParse_units_reads in E.
    destruct E as [month [day [year [Hw _]]]].
    now apply written_layout in Hw.
  - intros Hl. apply layout_written in Hl.
    destruct Hl as [month [day [year Hw]]].
    now rewrite (timeParse_units_written _ _ _ _ Hw).
Qed.

Lemma timeParse_mdY_accepts (s : string) :
  D3.timeParse_mdY s <> None <-> conforms_mdY s.
Proof. apply timeParse_units_accepts. Qed.

Lemma timeParse_mdY_written cell month day year :
  written_mdY cell month day year ->
  D3.timeParse_mdY cell = Some (D3.localDate year (month - 1) day).
Proof. apply timeParse_units_written. Qed.

Lemma days_from_civil_day y m d :
  days_from_civil y m d = days_from_civil y m 1 + d - 1.
Proof. unfold days_from_civil. lia. Qed.

(** With a month of the year and a year of three digits or more, the
    date is the [day]-th day counted from the first of that month. *)
Lemma localDate_in_range year month day :
  100 <= year -> 1 <= month <= 12 ->
  D3.localDate year (month - 1) day = days_from_civil year month 1 + day - 1.
Proof.
  intros Hy Hm. unfold D3.localDate, JS.MakeDay.
  replace (year <? 100) with false by (symmetry; apply Z.ltb_ge; lia).
  rewrite Bool.andb_false_r.
  rewrite Z.div_small, Z.mod_small by lia.
  now replace (year + 0) with year by lia;
    replace (month - 1 + 1) with month by lia.
Qed.

Lemma parse_cell_d3 cell :
  parse_cell D3.timeParse_mdY cell = D3.timeParse_mdY cell.
Proof.
  unfold parse_cell. destruct (String.eqb_spec cell "N/A") as [->|_];
    reflexivity.
Qed.

Lemma unreadable_is_null cell :
  unreadable cell -> parse_cell D3.timeParse_mdY cell = None.
Proof.
  intros [_ Hshape]. rewrite parse_cell_d3.
  destruct (D3.timeParse_mdY cell) eqn:E; [|reflexivity].
  contradiction Hshape. apply timeParse_mdY_accepts. now rewrite E.
Qed.

Lemma masked_cell_same cell cell' :
  masked_cell cell cell' ->
  parse_cell D3.timeParse_mdY cell = parse_cell D3.timeParse_mdY cell'.
Proof.
  intros [->|[Hbad ->]]; [reflexivity|].
  now rewrite (unreadable_is_null _ Hbad).
Qed.

(** ** The row accessor *)

(** C9, as stated, fails on a cell that has the layout but is no date of
    the format: "13/45/2024" is not "N/A" and names no month, and yet is
    read, as 2025-02-14, so the record differs from that of the same row
    with "N/A". *)
Lemma out_of_range_date_is_read :
  col_Recommended_Mail_Date overflow_row = "13/45/2024"
  /\ col_Recommended_Mail_Date overflow_row <> "N/A"
  /\ ~ calendar_mdY (col_Recommended_Mail_Date overflow_row)
  /\ recommended_mail_date (row_accessor D3.timeParse_mdY overflow_row)
     = Some (days_from_civil 2025 2 14)
  /\ recommended_mail_date (row_accessor D3.timeParse_mdY overflow_row_na)
     = None
  /\ row_accessor D3.timeParse_mdY overflow_row
     <> row_accessor D3.timeParse_mdY overflow_row_na.
Proof.
  split; [reflexivity|]. split; [discriminate|]. split.
  - intros [month [day [year [[fm [fd [fy [Heq [Hm _]]]]] [Hrange _]]]]].
    pose proof (number_re_value 2 fm ([D3.slash] ++ fd ++ [D3.slash] ++ fy)
                  month Hm eq_refl) as H.
    rewrite <- Heq in H. vm_compute in H. injection H as H _.
    rewrite <- H in Hrange. lia.
  - split; [reflexivity|]. split; [reflexivity|]. discriminate.
Qed.

(** C9, amended.  With the d3 parser, a date cell that is not "N/A" and
    does not have the layout of "%m/%d/%Y" becomes [null] without any
    error, as "N/A" does, so that replacing such cells of a row by "N/A"
    does not change the record; a date field is [null] exactly when its
    cell does not have the layout.  A cell that has the layout is always
    read, with no check of the ranges: it becomes the date the [Date]
    constructor makes of its three numbers, which for a month of the year
    and a year from 100 on is the day-th day counted from the first of
    that month.  The last two parts say the same of the parser on every
    sequence of code units, the white space beyond Latin-1 included. *)
Theorem malformed_date_reads_as_sentinel (d d' : Row) :
  col_State d = col_State d' ->
  col_Return_Methods d = col_Return_Methods d' ->
  masked_cell (col_Recommended_Mail_Date d) (col_Recommended_Mail_Date d') ->
  masked_cell (col_Ballot_Postmark_Deadline d)
              (col_Ballot_Postmark_Deadline d') ->
  masked_cell (col_Ballot_Receipt_Deadline d)
              (col_Ballot_Receipt_Deadline d') ->
  row_accessor D3.timeParse_mdY d = row_accessor D3.timeParse_mdY d'
  /\ (forall cell, cell <> "N/A" -> ~ conforms_mdY cell ->
        parse_cell D3.timeParse_mdY cell = None)
  /\ (forall cell,
        parse_cell D3.timeParse_mdY cell = None <-> ~ conforms_mdY cell)
  /\ (forall cell month day year,
        written_mdY cell month day year ->
        parse_cell D3.timeParse_mdY cell
        = Some (D3.localDate year (month - 1) day))
  /\ (forall cell month day year,
        written_mdY cell month day year ->
        1 <= month <= 12 -> 100 <= year ->
        parse_cell D3.timeParse_mdY cell
        = Some (days_from_civil year month 1 + day - 1))
  /\ (forall units, D3.timeParse_units units = None <-> ~ layout_mdY units)
  /\ (forall units month day year,
        written_units units month day year ->
        D3.timeParse_units units
        = Some (D3.localDate year (month - 1) day))
  /\ parse_cell D3.timeParse_mdY "13/45/2024"
     = Some (days_from_civil 2025 2 14)
  /\ parse_cell D3.timeParse_mdY "2/30/2024"
     = Some (days_from_civil 2024 3 1)
  /\ parse_cell D3.timeParse_mdY "N/A" = None.
Proof.
  intros Hs Hr Hm Hp Hrc.
  split; [|split; [|split; [|split; [|split; [|split; [|split; [|split]]]]]]];
    try reflexivity.
  - unfold row_accessor.
    rewrite Hs, Hr, (masked_cell_same _ _ Hm), (masked_cell_same _ _ Hp),
      (masked_cell_same _ _ Hrc).
    reflexivity.
  - intros cell Hne Hshape. apply unreadable_is_null. now split.
  - intros cell. rewrite parse_cell_d3. split.
    + intros Hnone Hc. apply timeParse_mdY_accepts in Hc. contradiction.
    + intros Hshape. destruct (D3.timeParse_mdY cell) eqn:E; [|reflexivity].
      contradiction Hshape. apply timeParse_mdY_accepts. now rewrite E.
  - intros cell month day year Hw. rewrite parse_cell_d3.
    now apply timeParse_mdY_written.
  - intros cell month day year Hw Hmonth Hyear. rewrite parse_cell_d3.
    rewrite (timeParse_mdY_written _ _ _ _ Hw).
    now rewrite localDate_in_range.
  - intros units. split.
    + intros Hnone Hl. apply timeParse_units_accepts in Hl. contradiction.
    + intros Hl. destruct (D3.timeParse_units units) eqn:E; [|reflexivity].
      contradiction Hl. apply timeParse_units_accepts. now rewrite E.
  - intros units month day year Hw. now apply timeParse_units_written.
  - split; reflexivity.
Qed.

Lemma malformed_date_reads_as_sentinel_witness :
  unreadable "2024-11-12"
  /\ row_accessor D3.timeParse_mdY iso_row
     = row_accessor D3.timeParse_mdY iso_row_na
  /\ written_mdY "2/30/2024" 2 30 2024
  /\ parse_cell D3.timeParse_mdY "2/30/2024"
     = Some (days_from_civil 2024 3 1).
Proof.
  assert (unreadable "2024-11-12") as Hbad.
  { split; [discriminate|]. intros Hc.
    apply timeParse_mdY_accepts in Hc. now apply Hc. }
  assert (written_mdY "2/30/2024" 2 30 2024) as Hw.
  { exists (D3.code_units "2"), (D3.code_units "30"), (D3.code_units "2024").
    split; [reflexivity|].
    split; [|split]; exists [];
      [ exists (D3.code_units "2") | exists (D3.code_units "30")
      | exists (D3.code_units "2024") ];
      cbn; repeat split; (discriminate || lia). }
  destruct (malformed_date_reads_as_sentinel iso_row iso_row_na)
    as [Heq [_ [_ [_ [Hdate _]]]]].
  - reflexivity.
  - reflexivity.
  - left. reflexivity.
  - left. reflexivity.
  - right. split; [exact Hbad | reflexivity].
  - split; [exact Hbad|]. split; [exact Heq|]. split; [exact Hw|].
    rewrite (Hdate _ _ _ _ Hw); [reflexivity | lia | lia].
Defined.

(** The d3 parser on some cells: it rejects other layouts and trailing
    text, and hands out-of-range fields to the [Date] constructor. *)
Example timeParse_no_break_space :
  D3.timeParse_mdY (String (ascii_of_nat 160) "1/05/2024")
  = Some (days_from_civil 2024 1 5).
Proof. reflexivity. Qed.

(** An em space (U+2003), a byte order mark (U+FEFF) and an ideographic
    space (U+3000) before a field are skipped; a zero width space
    (U+200B) is not white space. *)
Example timeParse_white_space :
  map D3.timeParse_units
      [ 8195%N :: D3.code_units "1/05/2024";
        65279%N :: D3.code_units "1/05/2024";
        D3.code_units "01/" ++ 12288%N :: D3.code_units "5/2024";
        8203%N :: D3.code_units "1/05/2024" ]
  = [ Some (days_from_civil 2024 1 5); Some (days_from_civil 2024 1 5);
      Some (days_from_civil 2024 1 5); None ].
Proof. reflexivity. Qed.

Example timeParse_samples :
  map D3.timeParse_mdY
      ["11/05/2024"; "2024-11-05"; "Nov 5, 2024"; "11/05/2024 "; "";
       "11/05"; "2/30/2024"]
  = [Some (days_from_civil 2024 11 5); None; None; None; None; None;
     Some (days_from_civil 2024 3 1)].
Proof. reflexivity. Qed.

(** ** Sorting with a comparator

    What the two engines give for a comparator [comparefn] that answers
    along a transitive relation [R] in this sense: a positive answer to
    [(a, b)] allows [b] before [a], any other answer allows [a] before
    [b].  The comparator need not be consistent. *)

Section SortAlong.
Context {A : Type} (comparefn : A -> A -> Z) (R : A -> A -> Prop).
Hypothesis R_trans : forall a b c, R a b -> R b c -> R a c.
Hypothesis after : forall a b, comparefn a b > 0 -> R b a.
Hypothesis before : forall a b, comparefn a b <= 0 -> R a b.

Lemma insert_back_Permutation x l :
  Permutation (x :: l) (JS.insert_back comparefn x l).
Proof.
  induction l as [|y l IH]; simpl; [reflexivity|].
  destruct (comparefn y x >? 0); [|reflexivity].
  rewrite perm_swap. now constructor.
Qed.

Lemma insert_back_sorted x l :
  StronglySorted (fun a b => R b a) l ->
  StronglySorted (fun a b => R b a) (JS.insert_back comparefn x l).
Proof.
  induction 1 as [|y l Hsorted IH Hall]; simpl.
  - repeat constructor.
  - destruct (comparefn y x >? 0) eqn:E.
    + constructor; [exact IH|].
      apply Z.gtb_lt in E.
      apply (Permutation_Forall (insert_back_Permutation x l)).
      constructor; [apply after; lia | exact Hall].
    + assert (R y x) as Hyx.
      { apply before. destruct (Z.gtb_spec (comparefn y x) 0); [discriminate | lia]. }
      constructor; [now constructor|].
      constructor; [exact Hyx|].
      eapply Forall_impl; [|exact Hall]. intros z Hz. simpl in Hz.
      now apply R_trans with y.
Qed.

Lemma fold_insert_back l acc :
  StronglySorted (fun a b => R b a) acc ->
  let out := fold_left (fun p x => JS.insert_back comparefn x p) l acc in
  StronglySorted (fun a b => R b a) out /\ Permutation (l ++ acc) out.
Proof.
  revert acc. induction l as [|x l IH]; intros acc Hacc; simpl.
  - split; [exact Hacc | reflexivity].
  - destruct (IH _ (insert_back_sorted x acc Hacc)) as [Hs Hp].
    split; [exact Hs|].
    rewrite <- Hp. rewrite <- insert_back_Permutation.
    apply Permutation_middle.
Qed.

Lemma StronglySorted_snoc (Q : A -> A -> Prop) l x :
  StronglySorted Q l -> Forall (fun y => Q y x) l ->
  StronglySorted Q (l ++ [x]).
Proof.
  induction 1 as [|y l Hs IH Hall]; intros Hx; simpl.
  - repeat constructor.
  - inversion Hx; subst. constructor; [now apply IH|].
    apply Forall_app. split; [exact Hall | now constructor].
Qed.

Lemma StronglySorted_rev (Q : A -> A -> Prop) l :
  StronglySorted (fun a b => Q b a) l -> StronglySorted Q (rev l).
Proof.
  induction 1 as [|y l Hs IH Hall]; simpl; [constructor|].
  apply StronglySorted_snoc; [exact IH|].
  apply Forall_rev. exact Hall.
Qed.

Lemma sort_along l :
  StronglySorted R (JS.sort comparefn l)
  /\ Permutation l (JS.sort comparefn l).
Proof.
  unfold JS.sort.
  destruct (fold_insert_back l [] (SSorted_nil _)) as [Hs Hp].
  split; [now apply StronglySorted_rev|].
  rewrite app_nil_r in Hp.
  eapply Permutation_trans; [exact Hp | apply Permutation_rev].
Qed.

Lemma merge_Permutation l1 l2 :
  Permutation (l1 ++ l2) (JS.merge comparefn l1 l2).
Proof.
  revert l2. induction l1 as [|a l1 IH1]; intros l2.
  - destruct l2; reflexivity.
  - induction l2 as [|b l2 IH2].
    + simpl. now rewrite app_nil_r.
    + simpl. destruct (comparefn a b >? 0).
      * rewrite <- IH2. symmetry. apply (Permutation_middle (a :: l1)).
      * constructor. apply IH1.
Qed.

Lemma merge_sorted l1 l2 :
  StronglySorted R l1 -> StronglySorted R l2 ->
  StronglySorted R (JS.merge comparefn l1 l2).
Proof.
  intros H1. revert l2.
  induction H1 as [|a l1 Hs1 IH1 Hall1]; intros l2 H2.
  - destruct l2; exact H2.
  - induction H2 as [|b l2 Hs2 IH2 Hall2].
    + simpl. now constructor.
    + simpl. destruct (comparefn a b >? 0) eqn:E.
      * apply Z.gtb_lt in E. assert (R b a) as Hba by (apply after; lia).
        constructor; [exact IH2|].
        apply (Permutation_Forall (merge_Permutation (a :: l1) l2)).
        apply Forall_app. split; [|exact Hall2].
        constructor; [exact Hba|].
        eapply Forall_impl; [|exact Hall1]. intros z Hz.
        now apply R_trans with a.
      * assert (R a b) as Hab.
        { apply before.
          destruct (Z.gtb_spec (comparefn a b) 0); [discriminate | lia]. }
        constructor; [apply IH1; now constructor|].
        apply (Permutation_Forall (merge_Permutation l1 (b :: l2))).
        apply Forall_app. split; [exact Hall1|].
        constructor; [exact Hab|].
        eapply Forall_impl; [|exact Hall2]. intros z Hz.
        now apply R_trans with b.
Qed.

Lemma merge_sort_fuel_along fuel l :
  (List.length l <= fuel)%nat ->
  StronglySorted R (JS.merge_sort_fuel comparefn fuel l)
  /\ Permutation l (JS.merge_sort_fuel comparefn fuel l).
Proof.
  revert l. induction fuel as [|fuel IH]; intros l Hlen.
  - destruct l; [|simpl in Hlen; lia]. split; constructor.
  - destruct l as [|a [|b l]].
    + split; constructor.
    + split; [repeat constructor | reflexivity].
    + remember (a :: b :: l) as whole eqn:Hwhole.
      assert (2 <= List.length whole)%nat as Htwo by (subst; simpl; lia).
      assert (JS.merge_sort_fuel comparefn (S fuel) whole =
              JS.merge comparefn
                (JS.merge_sort_fuel comparefn fuel
                   (firstn (Nat.div2 (List.length whole)) whole))
                (JS.merge_sort_fuel comparefn fuel
                   (skipn (Nat.div2 (List.length whole)) whole))) as ->
        by (subst; reflexivity).
      set (half := Nat.div2 (List.length whole)).
      assert (1 <= half /\ half < List.length whole)%nat as [Hlo Hhi].
      { unfold half. split.
        - revert Htwo.
          destruct (List.length whole) as [|[|n]]; simpl; [lia | lia |].
          intros _. apply le_n_S, Nat.le_0_l.
        - apply Nat.lt_div2. lia. }
      destruct (IH (firstn half whole)) as [Hs1 Hp1].
      { rewrite length_firstn. lia. }
      destruct (IH (skipn half whole)) as [Hs2 Hp2].
      { rewrite length_skipn. lia. }
      split; [now apply merge_sorted|].
      rewrite <- merge_Permutation, <- Hp1, <- Hp2.
      now rewrite firstn_skipn.
Qed.

Lemma merge_sort_along l :
  StronglySorted R (JS.merge_sort comparefn l)
  /\ Permutation l (JS.merge_sort comparefn l).
Proof. apply merge_sort_fuel_along. lia. Qed.

End SortAlong.

Lemma StronglySorted_nth_error {A} (R : A -> A -> Prop) l :
  StronglySorted R l ->
  forall i j a b, (i < j)%nat ->
    nth_error l i = Some a -> nth_error l j = Some b -> R a b.
Proof.
  induction 1 as [|x l Hs IH Hall]; intros i j a b Hij Ha Hb.
  - destruct i; discriminate.
  - destruct j as [|j]; [lia|]. simpl in Hb.
    destruct i as [|i]; simpl in Ha.
    + injection Ha as <-. rewrite Forall_forall in Hall.
      apply Hall. eapply nth_error_In; eassumption.
    + apply (IH i j); [lia | assumption | assumption].
Qed.

(** ** The sort of the loaded records *)

Lemma mail_date_order_trans a b c :
  mail_date_order a b -> mail_date_order b c -> mail_date_order a c.
Proof.
  unfold mail_date_order.
  destruct (recommended_mail_date a), (recommended_mail_date b),
    (recommended_mail_date c); simpl; try tauto; lia.
Qed.

Lemma compare_after a b :
  compare_by_mail_date a b > 0 -> mail_date_order b a.
Proof.
  unfold compare_by_mail_date, mail_date_order, D3.ascending.
  destruct (recommended_mail_date a) as [da|],
    (recommended_mail_date b) as [db|]; simpl; try tauto; try lia.
  destruct (Z.ltb_spec da db); [lia|].
  destruct (Z.gtb_spec da db); lia.
Qed.

Lemma compare_before a b :
  compare_by_mail_date a b <= 0 -> mail_date_order a b.
Proof.
  unfold compare_by_mail_date, mail_date_order, D3.ascending.
  destruct (recommended_mail_date a) as [da|],
    (recommended_mail_date b) as [db|]; simpl; try tauto; try lia.
  destruct (Z.ltb_spec da db); [lia|].
  destruct (Z.gtb_spec da db); lia.
Qed.

(** The comparator is not a consistent one when two records have no mail
    date: it places each after the other. *)
Example comparator_on_two_nulls :
  forall a b,
    recommended_mail_date a = None -> recommended_mail_date b = None ->
    compare_by_mail_date a b = 1 /\ compare_by_mail_date b a = 1.
Proof.
  intros a b Ha Hb. unfold compare_by_mail_date. now rewrite Ha, Hb.
Qed.

(** The merge-sort engine gives the same ordering. *)
Lemma merge_sort_by_mail_date (loaded : list Datum) :
  StronglySorted mail_date_order (JS.merge_sort compare_by_mail_date loaded)
  /\ Permutation loaded (JS.merge_sort compare_by_mail_date loaded).
Proof.
  apply merge_sort_along;
    [exact mail_date_order_trans | exact compare_after | exact compare_before].
Qed.

(** C3.  The sort of the loaded records returns a permutation of them in
    which, of any two records, the earlier one has a date when the later
    one has, and has the smaller or equal date when both have one; records
    with the dates [null, 2024-10-01, null, 2024-09-15] come out with the
    dates [2024-09-15, 2024-10-01, null, null]. *)
Theorem sort_by_mail_date (loaded : list Datum) :
  let sorted := JS.sort compare_by_mail_date loaded in
  Permutation loaded sorted
  /\ (forall i j a b, (i < j)%nat ->
        nth_error sorted i = Some a -> nth_error sorted j = Some b ->
        (recommended_mail_date a = None -> recommended_mail_date b = None)
        /\ (forall da db,
              recommended_mail_date a = Some da ->
              recommended_mail_date b = Some db -> da <= db))
  /\ (map recommended_mail_date loaded
        = [None; Some (days_from_civil 2024 10 1); None;
           Some (days_from_civil 2024 9 15)] ->
      map recommended_mail_date sorted
        = [Some (days_from_civil 2024 9 15); Some (days_from_civil 2024 10 1);
           None; None]).
Proof.
  destruct (sort_along compare_by_mail_date mail_date_order
              mail_date_order_trans compare_after compare_before loaded)
    as [Hsorted Hperm].
  cbv zeta. split; [exact Hperm|]. split.
  - intros i j a b Hij Ha Hb.
    pose proof (StronglySorted_nth_error _ _ Hsorted i j a b Hij Ha Hb) as Hab.
    unfold mail_date_order in Hab.
    destruct (recommended_mail_date a), (recommended_mail_date b);
      split; intros; try congruence; try tauto.
  - intros Hdates.
    destruct loaded as [|[s1 m1 p1 r1 t1] [|[s2 m2 p2 r2 t2]
      [|[s3 m3 p3 r3 t3] [|[s4 m4 p4 r4 t4] [|? ?]]]]]; try discriminate.
    simpl in Hdates. injection Hdates as -> -> -> ->. reflexivity.
Qed.

Lemma sort_by_mail_date_witness :
  map state (JS.sort compare_by_mail_date sample_data)
    = ["Wisconsin"; "Ohio"; "Guam"; "Texas"]
  /\ (forall da db,
        recommended_mail_date
          (nth 0 (JS.sort compare_by_mail_date sample_data)
               (row_accessor D3.timeParse_mdY iso_row)) = Some da ->
        recommended_mail_date
          (nth 1 (JS.sort compare_by_mail_date sample_data)
               (row_accessor D3.timeParse_mdY iso_row)) = Some db ->
        da <= db).
Proof.
  split; [reflexivity|].
  destruct (sort_by_mail_date sample_data) as [_ [Hpairs _]].
  intros da db Ha Hb.
  refine (proj2 (Hpairs 0%nat 1%nat _ _ _ eq_refl eq_refl) da db Ha Hb).
  lia.
Defined.

(** ** The time-axis domain *)

Lemma min_from_date (records : list Datum) (m : Date) :
  exists m',
    fold_left
      (fun acc a =>
         let value := match recommended_mail_date a with
                      | Some t => D3.Finite t
                      | None => D3.Infinity
                      end in
         match acc with
         | None => Some value
         | Some cur => if D3.gt cur value then Some value else acc
         end)
      records (Some (D3.Finite m)) = Some (D3.Finite m')
    /\ m' <= m
    /\ (forall d t, In d records -> recommended_mail_date d = Some t -> m' <= t)
    /\ (m' = m \/ exists d, In d records /\ recommended_mail_date d = Some m').
Proof.
  revert m. induction records as [|a rest IH]; intros m; simpl.
  - exists m. repeat split; [lia | tauto | now left].
  - destruct (recommended_mail_date a) as [t|] eqn:Ha; simpl.
    + destruct (Z.gtb_spec m t) as [Hgt|Hle].
      * destruct (IH t) as [m' [Hfold [Hle' [Hlow Hmem]]]].
        exists m'. split; [exact Hfold|]. split; [lia|]. split.
        -- intros d t' [<-|Hin] Hd; [|now apply (Hlow d)].
           rewrite Ha in Hd. injection Hd as <-. exact Hle'.
        -- right. destruct Hmem as [->|[d [Hin Hd]]].
           ++ exists a. tauto.
           ++ exists d. tauto.
      * destruct (IH m) as [m' [Hfold [Hle' [Hlow Hmem]]]].
        exists m'. split; [exact Hfold|]. split; [lia|]. split.
        -- intros d t' [<-|Hin] Hd; [|now apply (Hlow d)].
           rewrite Ha in Hd. injection Hd as <-. lia.
        -- destruct Hmem as [->|[d [Hin Hd]]]; [now left|].
           right. exists d. tauto.
    + destruct (IH m) as [m' [Hfold [Hle' [Hlow Hmem]]]].
      exists m'. split; [exact Hfold|]. split; [lia|]. split.
      * intros d t' [<-|Hin] Hd; [congruence | now apply (Hlow d)].
      * destruct Hmem as [->|[d [Hin Hd]]]; [now left|].
        right. exists d. tauto.
Qed.

Lemma min_from_nothing (records : list Datum) (acc : option D3.DateOrInfinity) :
  acc = None \/ acc = Some D3.Infinity ->
  (exists d t, In d records /\ recommended_mail_date d = Some t) ->
  exists m,
    fold_left
      (fun acc a =>
         let value := match recommended_mail_date a with
                      | Some t => D3.Finite t
                      | None => D3.Infinity
                      end in
         match acc with
         | None => Some value
         | Some cur => if D3.gt cur value then Some value else acc
         end)
      records acc = Some (D3.Finite m)
    /\ earliest_mail_date records m.
Proof.
  revert acc. induction records as [|a rest IH]; intros acc Hacc Hsome.
  - destruct Hsome as [d [t [[] _]]].
  - simpl. destruct (recommended_mail_date a) as [t|] eqn:Ha.
    + assert (match acc with
              | Some cur =>
                  if D3.gt cur (D3.Finite t) then Some (D3.Finite t) else acc
              | None => Some (D3.Finite t)
              end = Some (D3.Finite t)) as ->
        by (destruct Hacc as [->| ->]; reflexivity).
      destruct (min_from_date rest t) as [m [Hfold [Hle [Hlow Hmem]]]].
      exists m. split; [exact Hfold|]. split.
      * destruct Hmem as [->|[d [Hin Hd]]].
        -- exists a. simpl. tauto.
        -- exists d. simpl. tauto.
      * intros d t' [<-|Hin] Hd; [|now apply (Hlow d)].
        rewrite Ha in Hd. injection Hd as <-. exact Hle.
    + assert (match acc with
              | Some cur =>
                  if D3.gt cur D3.Infinity then Some D3.Infinity else acc
              | None => Some D3.Infinity
              end = Some D3.Infinity) as ->.
      { destruct Hacc as [->| ->]; reflexivity. }
      destruct (IH (Some D3.Infinity)) as [m [Hfold [[d [Hin Hd]] Hlow]]].
      * now right.
      * destruct Hsome as [d [t [[<-|Hin] Hd]]]; [congruence|].
        exists d, t. tauto.
      * exists m. split; [exact Hfold|]. split.
        -- exists d. simpl. tauto.
        -- intros d' t' [<-|Hin'] Hd'; [congruence | now apply (Hlow d')].
Qed.

Lemma max_from_date (records : list Datum) (m : Date) :
  exists m',
    fold_left
      (fun acc a =>
         match ballot_receipt_deadline a with
         | None => acc
         | Some value =>
             match acc with
             | None => Some value
             | Some cur => if cur <? value then Some value else acc
             end
         end)
      records (Some m) = Some m'
    /\ m <= m'
    /\ (forall d t, In d records -> ballot_receipt_deadline d = Some t -> t <= m')
    /\ (m' = m \/ exists d, In d records /\ ballot_receipt_deadline d = Some m').
Proof.
  revert m. induction records as [|a rest IH]; intros m; simpl.
  - exists m. repeat split; [lia | tauto | now left].
  - destruct (ballot_receipt_deadline a) as [t|] eqn:Ha.
    + destruct (Z.ltb_spec m t) as [Hlt|Hge].
      * destruct (IH t) as [m' [Hfold [Hle' [Hup Hmem]]]].
        exists m'. split; [exact Hfold|]. split; [lia|]. split.
        -- intros d t' [<-|Hin] Hd; [|now apply (Hup d)].
           rewrite Ha in Hd. injection Hd as <-. exact Hle'.
        -- right. destruct Hmem as [->|[d [Hin Hd]]].
           ++ exists a. tauto.
           ++ exists d. tauto.
      * destruct (IH m) as [m' [Hfold [Hle' [Hup Hmem]]]].
        exists m'. split; [exact Hfold|]. split; [lia|]. split.
        -- intros d t' [<-|Hin] Hd; [|now apply (Hup d)].
           rewrite Ha in Hd. injection Hd as <-. lia.
        -- destruct Hmem as [->|[d [Hin Hd]]]; [now left|].
           right. exists d. tauto.
    + destruct (IH m) as [m' [Hfold [Hle' [Hup Hmem]]]].
      exists m'. split; [exact Hfold|]. split; [lia|]. split.
      * intros d t' [<-|Hin] Hd; [congruence | now apply (Hup d)].
      * destruct Hmem as [->|[d [Hin Hd]]]; [now left|].
        right. exists d. tauto.
Qed.

Lemma max_from_nothing (records : list Datum) :
  (exists d t, In d records /\ ballot_receipt_deadline d = Some t) ->
  exists m,
    D3.max records ballot_receipt_deadline = Some m
    /\ latest_receipt_deadline records m.
Proof.
  unfold D3.max. induction records as [|a rest IH]; intros Hsome.
  - destruct Hsome as [d [t [[] _]]].
  - simpl. destruct (ballot_receipt_deadline a) as [t|] eqn:Ha.
    + destruct (max_from_date rest t) as [m [Hfold [Hle [Hup Hmem]]]].
      exists m. split; [exact Hfold|]. split.
      * destruct Hmem as [->|[d [Hin Hd]]].
        -- exists a. simpl. tauto.
        -- exists d. simpl. tauto.
      * intros d t' [<-|Hin] Hd; [|now apply (Hup d)].
        rewrite Ha in Hd. injection Hd as <-. exact Hle.
    + destruct IH as [m [Hfold [[d [Hin Hd]] Hup]]].
      * destruct Hsome as [d [t [[<-|Hin] Hd]]]; [congruence|].
        exists d, t. tauto.
      * exists m. split; [exact Hfold|]. split.
        -- exists d. simpl. tauto.
        -- intros d' t' [<-|Hin'] Hd'; [congruence | now apply (Hup d')].
Qed.

Lemma earliest_mail_date_unique records t t' :
  earliest_mail_date records t -> earliest_mail_date records t' -> t = t'.
Proof.
  intros [[d [Hin Hd]] Hlow] [[d' [Hin' Hd']] Hlow'].
  pose proof (Hlow d' t' Hin' Hd'). pose proof (Hlow' d t Hin Hd). lia.
Qed.

Lemma latest_receipt_deadline_unique records t t' :
  latest_receipt_deadline records t -> latest_receipt_deadline records t' ->
  t = t'.
Proof.
  intros [[d [Hin Hd]] Hup] [[d' [Hin' Hd']] Hup'].
  pose proof (Hup d' t' Hin' Hd'). pose proof (Hup' d t Hin Hd). lia.
Qed.

Lemma x_scale_domain records lo hi :
  earliest_mail_date records lo -> latest_receipt_deadline records hi ->
  time_domain (x_scale records) = (Some (lo - 10), Some hi).
Proof.
  intros Hlo Hhi.
  destruct (min_from_nothing records None) as [m [Hmin Hm]].
  { now left. }
  { destruct Hlo as [[d [Hin Hd]] _]. now exists d, lo. }
  destruct (max_from_nothing records) as [m' [Hmax Hm']].
  { destruct Hhi as [[d [Hin Hd]] _]. now exists d, hi. }
  change (minDate records = Some (D3.Finite m)) in Hmin.
  unfold x_scale, startDate, endDate. cbn [time_domain].
  rewrite Hmin, Hmax. cbn [D3.timeDay_offset].
  replace (m + -10) with (m - 10) by lia.
  rewrite (earliest_mail_date_unique _ _ _ Hlo Hm).
  rewrite (latest_receipt_deadline_unique _ _ _ Hhi Hm').
  reflexivity.
Qed.

Lemma earliest_mail_date_Permutation l l' t :
  Permutation l l' -> earliest_mail_date l t -> earliest_mail_date l' t.
Proof.
  intros Hp [[d [Hin Hd]] Hlow]. split.
  - exists d. split; [now apply (Permutation_in _ Hp) | exact Hd].
  - intros d' t' Hin'. apply Hlow.
    now apply (Permutation_in _ (Permutation_sym Hp)).
Qed.

Lemma latest_receipt_deadline_Permutation l l' t :
  Permutation l l' -> latest_receipt_deadline l t ->
  latest_receipt_deadline l' t.
Proof.
  intros Hp [[d [Hin Hd]] Hup]. split.
  - exists d. split; [now apply (Permutation_in _ Hp) | exact Hd].
  - intros d' t' Hin'. apply Hup.
    now apply (Permutation_in _ (Permutation_sym Hp)).
Qed.

Lemma reachable_x loaded p :
  reachable loaded p -> x p = x_scale (JS.sort compare_by_mail_date loaded).
Proof.
  induction 1 as [|e p Hreach IH]; [reflexivity|].
  now rewrite handle_x.
Qed.

Lemma reachable_data loaded p :
  reachable loaded p -> data p = JS.sort compare_by_mail_date loaded.
Proof.
  induction 1 as [|e p Hreach IH]; [reflexivity|].
  now rewrite handle_data.
Qed.

(** C4.  When some loaded record has a mail date and some has a receipt
    deadline, the domain of the time scale is, on every page the program
    reaches, the least mail date minus 10 days and the greatest receipt
    deadline; with least mail date 2024-09-10 and greatest receipt
    deadline 2024-11-05 it is [2024-08-31, 2024-11-05]. *)
Theorem time_axis_domain (loaded : list Datum) (p : Page) :
  reachable loaded p ->
  (exists d t, In d loaded /\ recommended_mail_date d = Some t) ->
  (exists d t, In d loaded /\ ballot_receipt_deadline d = Some t) ->
  (exists lo hi,
      earliest_mail_date loaded lo
      /\ latest_receipt_deadline loaded hi
      /\ time_domain (x p) = (Some (lo - 10), Some hi))
  /\ (earliest_mail_date loaded (days_from_civil 2024 9 10) ->
      latest_receipt_deadline loaded (days_from_civil 2024 11 5) ->
      time_domain (x p)
        = (Some (days_from_civil 2024 8 31), Some (days_from_civil 2024 11 5))).
Proof.
  intros Hreach Hmail Hreceipt.
  rewrite (reachable_x _ _ Hreach).
  pose proof (proj2 (sort_along compare_by_mail_date mail_date_order
                       mail_date_order_trans compare_after compare_before
                       loaded)) as Hperm.
  assert (forall lo hi,
             earliest_mail_date loaded lo ->
             latest_receipt_deadline loaded hi ->
             time_domain (x_scale (JS.sort compare_by_mail_date loaded))
               = (Some (lo - 10), Some hi)) as Hdom.
  { intros lo hi Hlo Hhi. apply x_scale_domain.
    - now apply (earliest_mail_date_Permutation loaded).
    - now apply (latest_receipt_deadline_Permutation loaded). }
  split.
  - destruct (min_from_nothing loaded None (or_introl eq_refl) Hmail)
      as [lo [_ Hlo]].
    destruct (max_from_nothing loaded Hreceipt) as [hi [_ Hhi]].
    exists lo, hi. split; [exact Hlo|]. split; [exact Hhi|].
    now apply Hdom.
  - intros Hlo Hhi. now rewrite (Hdom _ _ Hlo Hhi).
Qed.

Lemma time_axis_domain_witness :
  let p := handle (change_post true) (start sample_data) in
  map recommended_mail_date sample_data
    = [None; Some (days_from_civil 2024 9 20); None;
       Some (days_from_civil 2024 9 10)]
  /\ time_domain (x p)
     = (Some (days_from_civil 2024 8 31), Some (days_from_civil 2024 11 5)).
Proof.
  split; [reflexivity|].
  apply (time_axis_domain sample_data).
  - constructor. constructor.
  - exists (nth 1 sample_data (row_accessor D3.timeParse_mdY iso_row)).
    eexists. split; [right; left; reflexivity | reflexivity].
  - exists (nth 0 sample_data (row_accessor D3.timeParse_mdY iso_row)).
    eexists. split; [left; reflexivity | reflexivity].
  - split.
    + exists (nth 3 sample_data (row_accessor D3.timeParse_mdY iso_row)).
      split; [do 3 right; left; reflexivity | reflexivity].
    + intros d t' Hin Hd.
      repeat (destruct Hin as [<-|Hin]; [vm_compute in Hd |]);
        try discriminate; try (injection Hd as <-; vm_compute; discriminate).
      destruct Hin.
  - split.
    + exists (nth 0 sample_data (row_accessor D3.timeParse_mdY iso_row)).
      split; [left; reflexivity | reflexivity].
    + intros d t' Hin Hd.
      repeat (destruct Hin as [<-|Hin]; [vm_compute in Hd |]);
        try discriminate; try (injection Hd as <-; vm_compute; discriminate).
      destruct Hin.
Defined.

(** ** Selections on trees *)

Lemma class_remove_all sel n : class (remove_all sel n) = class n.
Proof. destruct n. reflexivity. Qed.

Lemma has_class_remove_all c sel n :
  has_class c (remove_all sel n) = has_class c n.
Proof. unfold has_class. now rewrite class_remove_all. Qed.

Lemma has_any_class_remove_all cs sel n :
  has_any_class cs (remove_all sel n) = has_any_class cs n.
Proof.
  unfold has_any_class. induction cs as [|c cs IH]; simpl; [reflexivity|].
  now rewrite has_class_remove_all, IH.
Qed.

Lemma descendants_eq t c d a s tx ks :
  descendants (El t c d a s tx ks) = flat_map subtree ks.
Proof. reflexivity. Qed.

Lemma remove_each_app sel ks ks' :
  remove_each sel (ks ++ ks') = remove_each sel ks ++ remove_each sel ks'.
Proof.
  induction ks as [|k ks IH]; simpl; [reflexivity|].
  destruct (sel k); [exact IH | now rewrite IH].
Qed.

Lemma remove_each_all sel ks :
  Forall (fun k => sel k = true) ks -> remove_each sel ks = [].
Proof.
  induction 1 as [|k ks Hk Hks IH]; simpl; [reflexivity|].
  now rewrite Hk.
Qed.

(** Nothing the selector matches is left below the group. *)
Lemma remove_all_clears cs n :
  Forall (fun m => has_any_class cs m = false)
         (descendants (remove_all (has_any_class cs) n)).
Proof.
  induction n as [t c d a s tx ks IH] using Node_kids_ind.
  rewrite remove_all_eq, descendants_eq.
  induction IH as [|k ks Hk Hks IHks]; simpl; [constructor|].
  destruct (has_any_class cs k) eqn:E; [exact IHks|].
  simpl. apply Forall_app. split; [|exact IHks].
  rewrite subtree_eq. constructor.
  - now rewrite has_any_class_remove_all.
  - exact Hk.
Qed.

(** A property of class lists that holds below a group still holds after
    a removal. *)
Lemma remove_all_keeps (P : list string -> Prop) sel n :
  Forall (fun m => P (class m)) (subtree n) ->
  Forall (fun m => P (class m)) (subtree (remove_all sel n)).
Proof.
  induction n as [t c d a s tx ks IH] using Node_kids_ind.
  rewrite remove_all_eq, !subtree_eq. cbn [kids].
  intros H. inversion H as [|? ? Hroot Hks]; subst.
  constructor; [exact Hroot|]. clear H Hroot.
  induction IH as [|k ks Hk Hks' IHks]; simpl; [constructor|].
  simpl in Hks. apply Forall_app in Hks. destruct Hks as [Hsub Hrest].
  destruct (sel k); [now apply IHks|].
  simpl. apply Forall_app. split; [now apply Hk | now apply IHks].
Qed.

Lemma remove_all_none sel n :
  Forall (fun m => sel m = false) (descendants n) -> remove_all sel n = n.
Proof.
  induction n as [t c d a s tx ks IH] using Node_kids_ind.
  rewrite remove_all_eq, descendants_eq. intros H. f_equal.
  induction IH as [|k ks Hk Hks IHks]; simpl; [reflexivity|].
  simpl in H. apply Forall_app in H. destruct H as [Hsub Hrest].
  rewrite subtree_eq in Hsub. inversion Hsub as [|? ? Hself Hdesc]; subst.
  rewrite Hself. rewrite (Hk Hdesc). now rewrite (IHks Hrest).
Qed.

Lemma bind_from_eq sel t c d a s tx ks values :
  bind_from sel (El t c d a s tx ks) values =
  let '(d', values1) :=
    if sel (El t c d a s tx ks) then
      match values with
      | v :: rest => (BoundDatum v, rest)
      | [] => (d, [])
      end
    else (d, values) in
  let '(ks', values2) := bind_each sel ks values1 in
  (El t c d' a s tx ks', values2).
Proof.
  cbn [bind_from].
  destruct (if sel (El t c d a s tx ks) then
              match values with
              | v :: rest => (BoundDatum v, rest)
              | [] => (d, [])
              end
            else (d, values)) as [d' values1].
  match goal with
  | |- (let '(_, _) := ?l in _) = (let '(_, _) := ?r in _) =>
      replace l with r; [reflexivity|]
  end.
  revert values1. induction ks as [|k ks IH]; intros values1; simpl;
    [reflexivity|].
  destruct (bind_from sel k values1) as [k' values']. now rewrite IH.
Qed.

Lemma bind_from_none sel n values :
  Forall (fun m => sel m = false) (subtree n) ->
  bind_from sel n values = (n, values).
Proof.
  revert values.
  induction n as [t c d a s tx ks IH] using Node_kids_ind.
  intros values H. rewrite subtree_eq in H.
  inversion H as [|? ? Hself Hdesc]; subst. cbn [kids] in Hdesc.
  rewrite bind_from_eq, Hself.
  assert (bind_each sel ks values = (ks, values)) as ->; [|reflexivity].
  clear H Hself. revert values.
  induction IH as [|k ks Hk Hks IHks]; intros values; simpl; [reflexivity|].
  simpl in Hdesc. apply Forall_app in Hdesc. destruct Hdesc as [Hsub Hrest].
  rewrite (Hk values Hsub), (IHks Hrest). reflexivity.
Qed.

Lemma bind_data_none sel values g :
  selectAll sel g = [] -> bind_data sel values g = g.
Proof.
  unfold selectAll. intros Hnone.
  destruct g as [t c d a s tx ks]. unfold bind_data. f_equal.
  rewrite descendants_eq in Hnone.
  assert (Forall (fun m => sel m = false) (flat_map subtree ks)) as Hall.
  { apply Forall_forall. intros m Hin.
    destruct (sel m) eqn:E; [|reflexivity].
    assert (In m (filter sel (flat_map subtree ks))) as Hm
      by (apply filter_In; split; assumption).
    rewrite Hnone in Hm. destruct Hm. }
  clear Hnone. revert values.
  induction ks as [|k ks IH]; intros values; simpl; [reflexivity|].
  simpl in Hall. apply Forall_app in Hall. destruct Hall as [Hsub Hrest].
  rewrite (bind_from_none sel k values Hsub).
  specialize (IH Hrest values).
  destruct (bind_each sel ks values) as [r values'']. simpl in *.
  now rewrite IH.
Qed.

(** With nothing selected, every value enters. *)
Lemma join_enter_append_all sel values make g :
  selectAll sel g = [] ->
  join_enter_append sel values make g = append_children g (map make values).
Proof.
  intros Hnone. unfold join_enter_append.
  now rewrite Hnone, (bind_data_none _ _ _ Hnone).
Qed.

Lemma descendants_append g news :
  descendants (append_children g news) =
  descendants g ++ flat_map subtree news.
Proof.
  destruct g as [t c d a s tx ks]. cbn [append_children].
  rewrite !descendants_eq. apply flat_map_app.
Qed.

Lemma append_children_app g news news' :
  append_children (append_children g news) news' =
  append_children g (news ++ news').
Proof. destruct g. simpl. now rewrite app_assoc. Qed.

Lemma flat_map_subtree_leaves {A} (make : A -> Node) (l : list A) :
  (forall a, kids (make a) = []) ->
  flat_map subtree (map make l) = map make l.
Proof.
  intros Hleaf. induction l as [|a l IH]; simpl; [reflexivity|].
  rewrite subtree_eq, Hleaf, IH. reflexivity.
Qed.

Lemma filter_none {A} (f : A -> bool) (l : list A) :
  Forall (fun a => f a = false) l -> filter f l = [].
Proof.
  induction 1 as [|a l Ha Hl IH]; simpl; [reflexivity|]. now rewrite Ha.
Qed.

Lemma filter_every {A} (f : A -> bool) (l : list A) :
  Forall (fun a => f a = true) l -> filter f l = l.
Proof.
  induction 1 as [|a l Ha Hl IH]; simpl; [reflexivity|]. now rewrite Ha, IH.
Qed.

Lemma remove_all_keeps_below (P : list string -> Prop) sel g :
  Forall (fun m => P (class m)) (descendants g) ->
  Forall (fun m => P (class m)) (descendants (remove_all sel g)).
Proof.
  destruct g as [t c d a s tx ks].
  rewrite remove_all_eq, !descendants_eq.
  induction ks as [|k ks IH]; simpl; [constructor|].
  intros H. apply Forall_app in H. destruct H as [Hsub Hrest].
  destruct (sel k); [now apply IH|].
  simpl. apply Forall_app. split; [now apply remove_all_keeps | now apply IH].
Qed.

Lemma selectAll_append sel g news :
  selectAll sel (append_children g news) =
  selectAll sel g ++ filter sel (flat_map subtree news).
Proof. unfold selectAll. now rewrite descendants_append, filter_app. Qed.

Lemma selectAll_none sel g :
  Forall (fun m => sel m = false) (descendants g) -> selectAll sel g = [].
Proof. apply filter_none. Qed.

Lemma filter_map_none {A} (sel : Node -> bool) (make : A -> Node) l :
  (forall a, sel (make a) = false) -> filter sel (map make l) = [].
Proof.
  intros H. apply filter_none, Forall_forall. intros n Hin.
  apply in_map_iff in Hin. destruct Hin as [a [<- _]]. apply H.
Qed.

Lemma filter_map_every {A} (sel : Node -> bool) (make : A -> Node) l :
  (forall a, sel (make a) = true) -> filter sel (map make l) = map make l.
Proof.
  intros H. apply filter_every, Forall_forall. intros n Hin.
  apply in_map_iff in Hin. destruct Hin as [a [<- _]]. apply H.
Qed.

Lemma has_class_series c m :
  In c series_classes -> has_any_class series_classes m = false ->
  has_class c m = false.
Proof.
  unfold has_any_class, series_classes. simpl.
  intros [<-|[<-|[<-|[]]]] H;
    repeat (apply Bool.orb_false_iff in H; destruct H as [? H]); assumption.
Qed.

Lemma has_class_mark c m :
  In c ["dot"; "line"] -> is_mark m = false -> has_class c m = false.
Proof.
  unfold is_mark, has_any_class. simpl.
  intros [<-|[<-|[]]] H;
    repeat (apply Bool.orb_false_iff in H; destruct H as [? H]); assumption.
Qed.

(** ** [updateChart] *)

Lemma drawn_leaves x y fd :
  flat_map subtree (drawn_lines x y fd ++ drawn_dots x y fd) =
  drawn_lines x y fd ++ drawn_dots x y fd.
Proof.
  unfold drawn_lines, drawn_dots.
  rewrite !flat_map_app, !flat_map_subtree_leaves; reflexivity.
Qed.

(** With no element of a series class below the group, the three dot
    selections of [updateChart] are empty, as is the line selection after
    the removal: every filtered record enters every join. *)
Lemma updateChart_svg_eq x y fd g :
  no_series_class g ->
  updateChart_svg x y fd g =
  append_children (remove_all is_mark g)
    (drawn_lines x y fd ++ drawn_dots x y fd).
Proof.
  intros Hclean. unfold updateChart_svg.
  fold is_mark. set (g0 := remove_all is_mark g).
  assert (Forall (fun m => is_mark m = false) (descendants g0)) as Hcleared
    by apply remove_all_clears.
  assert (Forall (fun m => has_any_class series_classes m = false)
                 (descendants g0)) as Hclean0.
  { apply (remove_all_keeps_below
             (fun c => existsb (fun s => existsb (String.eqb s) c)
                         series_classes = false)).
    exact Hclean. }
  assert (forall c, In c series_classes -> selectAll (has_class c) g0 = [])
    as Hseries.
  { intros c Hc. apply selectAll_none.
    eapply Forall_impl; [|exact Hclean0]. intros m. now apply has_class_series. }
  rewrite (join_enter_append_all (has_class "line")).
  2:{ apply selectAll_none. eapply Forall_impl; [|exact Hcleared].
      intros m. apply has_class_mark. simpl. tauto. }
  rewrite (join_enter_append_all (has_class "dot-mail")).
  2:{ rewrite selectAll_append, Hseries by (simpl; tauto).
      rewrite flat_map_subtree_leaves by reflexivity.
      now rewrite filter_map_none. }
  rewrite append_children_app.
  rewrite (join_enter_append_all (has_class "dot-postmark")).
  2:{ rewrite selectAll_append, Hseries by (simpl; tauto).
      rewrite flat_map_app, !flat_map_subtree_leaves by reflexivity.
      now rewrite filter_app, !filter_map_none. }
  rewrite append_children_app.
  rewrite (join_enter_append_all (has_class "dot-receipt")).
  2:{ rewrite selectAll_append, Hseries by (simpl; tauto).
      rewrite !flat_map_app, !flat_map_subtree_leaves by reflexivity.
      now rewrite !filter_app, !filter_map_none. }
  rewrite append_children_app.
  unfold drawn_lines, drawn_dots. now rewrite <- !app_assoc.
Qed.

Lemma drawn_are_marks x y fd :
  Forall (fun m => is_mark m = true) (drawn_lines x y fd ++ drawn_dots x y fd).
Proof.
  unfold drawn_lines, drawn_dots.
  repeat (apply Forall_app; split);
    apply Forall_forall; intros n Hin; apply in_map_iff in Hin;
    destruct Hin as [d [<- _]]; reflexivity.
Qed.

Lemma drawn_no_series x y fd :
  Forall (fun m => has_any_class series_classes m = false)
         (drawn_lines x y fd ++ drawn_dots x y fd).
Proof.
  unfold drawn_lines, drawn_dots.
  repeat (apply Forall_app; split);
    apply Forall_forall; intros n Hin; apply in_map_iff in Hin;
    destruct Hin as [d [<- _]]; reflexivity.
Qed.

Lemma updateChart_svg_clean x y fd g :
  no_series_class g -> no_series_class (updateChart_svg x y fd g).
Proof.
  intros Hclean. rewrite (updateChart_svg_eq _ _ _ _ Hclean).
  unfold no_series_class. rewrite descendants_append, drawn_leaves.
  apply Forall_app. split; [|apply drawn_no_series].
  apply (remove_all_keeps_below
           (fun c => existsb (fun s => existsb (String.eqb s) c)
                       series_classes = false)).
  exact Hclean.
Qed.

(** The marks below the group after a redraw are the marks just drawn. *)
Lemma updateChart_svg_marks x y fd g :
  no_series_class g ->
  selectAll is_mark (updateChart_svg x y fd g) =
  drawn_lines x y fd ++ drawn_dots x y fd.
Proof.
  intros Hclean. rewrite (updateChart_svg_eq _ _ _ _ Hclean).
  rewrite selectAll_append, drawn_leaves.
  rewrite (selectAll_none is_mark) by apply remove_all_clears.
  apply filter_every, drawn_are_marks.
Qed.

(** A redraw forgets the marks of the redraw before it. *)
Lemma updateChart_svg_again x y fd x' y' fd' g :
  no_series_class g ->
  updateChart_svg x y fd (updateChart_svg x' y' fd' g) =
  updateChart_svg x y fd g.
Proof.
  intros Hclean.
  rewrite (updateChart_svg_eq x y fd _ (updateChart_svg_clean x' y' fd' g Hclean)).
  rewrite (updateChart_svg_eq x' y' fd' g Hclean).
  rewrite (updateChart_svg_eq x y fd g Hclean).
  f_equal.
  pose proof (remove_all_clears ["dot"; "line"] g) as Hcleared.
  fold is_mark in Hcleared.
  destruct (remove_all is_mark g) as [t c d a s tx ks] eqn:Hg0.
  cbn [append_children]. rewrite remove_all_eq, remove_each_app.
  rewrite (remove_each_all is_mark _ (drawn_are_marks x' y' fd')).
  rewrite app_nil_r.
  rewrite <- remove_all_eq. apply remove_all_none. exact Hcleared.
Qed.

(** ** The redraw cycle on the pages the program reaches *)

Lemma style_ticks_eq hl in_axis in_tick t c d a s tx ks :
  style_ticks hl in_axis in_tick (El t c d a s tx ks) =
  El t
     (if in_tick && (t =? "text")%string then
        classed "normal-tick" (negb (includes_bound hl d))
          (classed "highlighted-tick" (includes_bound hl d) c)
      else c)
     d a s tx
     (map (style_ticks hl
             (in_axis || has_class "y-axis" (El t c d a s tx ks))
             (in_tick || (in_axis && has_class "tick" (El t c d a s tx ks))))
          ks).
Proof. reflexivity. Qed.

Lemma tick_texts_eq in_axis in_tick n :
  tick_texts in_axis in_tick n =
  (if in_tick && (tag n =? "text")%string then [n] else [])
  ++ flat_map (tick_texts (in_axis || has_class "y-axis" n)
                          (in_tick || (in_axis && has_class "tick" n)))
              (kids n).
Proof. destruct n. reflexivity. Qed.

Lemma style_axis_tick s :
  style_ticks highlightedStates true false (axis_tick tickFormat s) =
  styled_tick s.
Proof.
  unfold axis_tick, styled_tick, styled_label, tick_class, tickFormat.
  rewrite style_ticks_eq.
  cbn [andb orb has_class class existsb String.eqb Ascii.eqb Bool.eqb map].
  rewrite !style_ticks_eq.
  cbn [andb orb String.eqb Ascii.eqb Bool.eqb map includes_bound].
  destruct (JS.includes highlightedStates s); reflexivity.
Qed.

Lemma style_rendered_axis domain :
  style_ticks highlightedStates false false
    (El "g" ["y-axis"] Unbound [] [] None (axis_nodes domain tickFormat)) =
  styled_axis domain.
Proof.
  unfold styled_axis, axis_nodes. rewrite style_ticks_eq.
  cbn [andb orb has_class class existsb String.eqb Ascii.eqb Bool.eqb map].
  f_equal. f_equal. rewrite map_map. apply map_ext, style_axis_tick.
Qed.

(** Outside a y axis, styling the tick labels changes nothing. *)
Lemma style_ticks_outside hl n :
  Forall (fun m => has_class "y-axis" m = false) (subtree n) ->
  style_ticks hl false false n = n.
Proof.
  induction n as [t c d a s tx ks IH] using Node_kids_ind.
  rewrite subtree_eq. intros H. inversion H as [|? ? Hself Hdesc]; subst.
  rewrite style_ticks_eq, Hself. cbn [andb orb kids] in *. f_equal.
  clear H Hself.
  induction IH as [|k ks Hk Hks IHks]; simpl; [reflexivity|].
  simpl in Hdesc. apply Forall_app in Hdesc. destruct Hdesc as [Hsub Hrest].
  now rewrite (Hk Hsub), (IHks Hrest).
Qed.

Lemma setup_svg loaded :
  svg (setup loaded) =
  El "g" [] Unbound [] [] None
     [ x_axis_group; x_axis_caption;
       styled_axis (band_domain (y (setup loaded))); legend ].
Proof.
  unfold setup. cbn [svg y append_children app renderYAxis].
  unfold styleHighlightedStatesYAxis. rewrite style_ticks_eq.
  cbn [andb orb has_class class existsb map].
  rewrite style_rendered_axis. reflexivity.
Qed.

Lemma select_remove_setup domain :
  select_remove (has_class "y-axis")
    (El "g" [] Unbound [] [] None
        [ x_axis_group; x_axis_caption; styled_axis domain; legend ]) =
  frame_with [].
Proof. reflexivity. Qed.

Lemma select_remove_rendered x y fd :
  select_remove (has_class "y-axis") (rendered_svg x y fd) =
  frame_with (drawn_lines x y fd ++ drawn_dots x y fd).
Proof. reflexivity. Qed.

Lemma drawn_outside_axis x y fd :
  Forall (fun n => Forall (fun m => has_class "y-axis" m = false) (subtree n))
         (drawn_lines x y fd ++ drawn_dots x y fd).
Proof.
  unfold drawn_lines, drawn_dots.
  repeat (apply Forall_app; split);
    apply Forall_forall; intros n Hin; apply in_map_iff in Hin;
    destruct Hin as [d [<- _]]; repeat constructor.
Qed.

(** What is below a styled y axis: the domain path and, per state, the
    tick group, its line and its label. *)
Lemma styled_axis_descendants (Q : Node -> Prop) domain :
  Q (El "path" ["domain"] Unbound [] [] None []) ->
  (forall s, Q (styled_tick s)) ->
  (forall s, Q (El "line" [] (BoundState s) [] [] None [])) ->
  (forall s, Q (styled_label s)) ->
  Forall Q (descendants (styled_axis domain)).
Proof.
  intros Hpath Htick Hline Hlabel. unfold styled_axis.
  rewrite descendants_eq. simpl. constructor; [exact Hpath|].
  induction domain as [|s domain IH]; simpl; [constructor|].
  constructor; [exact (Htick s)|].
  constructor; [exact (Hline s)|].
  constructor; [exact (Hlabel s) | exact IH].
Qed.

Lemma has_any_class_label cs s :
  existsb (String.eqb "highlighted-tick") cs = false ->
  existsb (String.eqb "normal-tick") cs = false ->
  has_any_class cs (styled_label s) = false.
Proof.
  intros Hh Hn. unfold has_any_class, styled_label, tick_class, has_class.
  cbn [class].
  induction cs as [|c cs IH]; cbn [existsb] in *; [reflexivity|].
  apply Bool.orb_false_iff in Hh. destruct Hh as [Hh1 Hh2].
  apply Bool.orb_false_iff in Hn. destruct Hn as [Hn1 Hn2].
  rewrite (IH Hh2 Hn2), !Bool.orb_false_r.
  destruct (JS.includes highlightedStates s).
  - now rewrite String.eqb_sym.
  - now rewrite String.eqb_sym.
Qed.

Lemma styled_axis_subtree_no_class cs domain :
  existsb (String.eqb "highlighted-tick") cs = false ->
  existsb (String.eqb "normal-tick") cs = false ->
  existsb (String.eqb "tick") cs = false ->
  existsb (String.eqb "domain") cs = false ->
  Forall (fun m => has_any_class cs m = false)
         (descendants (styled_axis domain)).
Proof.
  intros Hh Hn Ht Hd.
  assert (forall c t d k,
             existsb (String.eqb c) cs = false ->
             has_any_class cs (El t [c] d [] [] None k) = false) as Hone.
  { intros c t d k Hc. unfold has_any_class, has_class. cbn [class].
    clear Hh Hn Ht Hd.
    induction cs as [|c' cs IH]; cbn [existsb] in *; [reflexivity|].
    apply Bool.orb_false_iff in Hc. destruct Hc as [Hc1 Hc2].
    now rewrite (IH Hc2), String.eqb_sym, Hc1. }
  assert (forall t d, has_any_class cs (El t [] d [] [] None []) = false)
    as Hnone.
  { intros t d. unfold has_any_class, has_class. cbn [class].
    clear. induction cs as [|c' cs IH]; cbn [existsb orb];
      [reflexivity | exact IH]. }
  apply styled_axis_descendants.
  - now apply Hone.
  - intros s. now apply Hone.
  - intros s. apply Hnone.
  - intros s. now apply has_any_class_label.
Qed.

(** The frame of static elements holds no mark and nothing of a series
    class or of class [y-axis]. *)
Lemma frame_statics :
  Forall (fun m => is_mark m = false
                   /\ has_any_class series_classes m = false
                   /\ has_class "y-axis" m = false)
         (flat_map subtree [x_axis_group; x_axis_caption; legend]).
Proof. repeat constructor. Qed.

Lemma frame_with_descendants marks :
  descendants (frame_with marks) =
  flat_map subtree [x_axis_group; x_axis_caption; legend]
  ++ flat_map subtree marks.
Proof. unfold frame_with. rewrite descendants_eq. reflexivity. Qed.

Lemma rendered_clean x y fd : no_series_class (rendered_svg x y fd).
Proof.
  unfold no_series_class, rendered_svg.
  rewrite frame_with_descendants. apply Forall_app. split.
  - eapply Forall_impl; [|exact frame_statics]. simpl. tauto.
  - change (styled_axis (band_domain y)
            :: drawn_lines x y fd ++ drawn_dots x y fd)
      with ([styled_axis (band_domain y)]
            ++ (drawn_lines x y fd ++ drawn_dots x y fd)).
    rewrite flat_map_app, drawn_leaves. apply Forall_app. split.
    + cbn [flat_map]. rewrite app_nil_r, subtree_eq.
      constructor; [reflexivity|].
      now apply styled_axis_subtree_no_class.
    + apply drawn_no_series.
Qed.

(** One pass of lines 141-147 on a chart group without y axis that holds
    the marks of an earlier redraw. *)
Lemma redraw_on_frame x y fd x0 y0 fd0 :
  updateChart_svg x y fd
    (styleHighlightedStatesYAxis
       (renderYAxis y (frame_with (drawn_lines x0 y0 fd0 ++ drawn_dots x0 y0 fd0)))
       highlightedStates) =
  rendered_svg x y fd.
Proof.
  set (old := drawn_lines x0 y0 fd0 ++ drawn_dots x0 y0 fd0).
  assert (styleHighlightedStatesYAxis
            (renderYAxis y (frame_with old)) highlightedStates =
          El "g" [] Unbound [] [] None
             ([x_axis_group; x_axis_caption; legend] ++ old
              ++ [styled_axis (band_domain y)])) as ->.
  { unfold styleHighlightedStatesYAxis, renderYAxis, frame_with.
    cbn [append_children]. rewrite style_ticks_eq.
    cbn [andb orb has_class class existsb].
    f_equal.
    change (x_axis_group :: x_axis_caption :: legend :: old)
      with ([x_axis_group; x_axis_caption; legend] ++ old).
    rewrite <- app_assoc, !map_app.
    apply f_equal2; [reflexivity|]. apply f_equal2.
    - pose proof (drawn_outside_axis x0 y0 fd0) as Hout. fold old in Hout.
      induction Hout as [|k ks Hk Hks IH]; simpl; [reflexivity|].
      now rewrite (style_ticks_outside _ _ Hk), IH.
    - cbn [map]. now rewrite style_rendered_axis. }
  rewrite updateChart_svg_eq.
  - unfold rendered_svg, frame_with. rewrite remove_all_eq.
    cbn [append_children]. f_equal.
    rewrite !remove_each_app.
    rewrite (remove_each_all is_mark old) by apply drawn_are_marks.
    cbn [app].
    assert (remove_each is_mark [styled_axis (band_domain y)] =
            [styled_axis (band_domain y)]) as ->.
    { cbn [remove_each].
      change (is_mark (styled_axis (band_domain y))) with false. cbv iota.
      rewrite remove_all_none; [reflexivity|].
      now apply (styled_axis_subtree_no_class ["dot"; "line"]). }
    reflexivity.
  - unfold no_series_class. rewrite descendants_eq, !flat_map_app.
    apply Forall_app. split.
    + eapply Forall_impl; [|exact frame_statics]. simpl. tauto.
    + unfold old. rewrite drawn_leaves. apply Forall_app. split.
      * apply drawn_no_series.
      * cbn [flat_map]. rewrite app_nil_r, subtree_eq.
      constructor; [reflexivity|].
        now apply styled_axis_subtree_no_class.
Qed.

Lemma drawn_nothing x y : drawn_lines x y [] ++ drawn_dots x y [] = [].
Proof. reflexivity. Qed.

Lemma applyFilters_svg p :
  (exists domain,
      svg p = El "g" [] Unbound [] [] None
                 [ x_axis_group; x_axis_caption; styled_axis domain; legend ])
  \/ (exists x0 y0 fd0, svg p = rendered_svg x0 y0 fd0) ->
  svg (applyFilters p) =
  rendered_svg (x (applyFilters p)) (y (applyFilters p))
               (filteredData (filters p) (data p)).
Proof.
  intros Hshape. unfold applyFilters, updateChart.
  cbn [svg x y data filters].
  destruct Hshape as [[domain ->]|[x0 [y0 [fd0 ->]]]].
  - rewrite select_remove_setup.
    rewrite <- (drawn_nothing (x p) (y p)). apply redraw_on_frame.
  - rewrite select_remove_rendered. apply redraw_on_frame.
Qed.

(** On every page the program reaches, the chart group is the frame, the
    styled y axis of the current band domain, and the marks of the
    current filtered records. *)
Lemma reachable_svg loaded p :
  reachable loaded p ->
  svg p = rendered_svg (x p) (y p) (filteredData (filters p) (data p)).
Proof.
  induction 1 as [|e p Hreach IH].
  - unfold start. rewrite applyFilters_svg; [reflexivity|].
    left. eexists. apply setup_svg.
  - assert (forall f,
               svg (applyFilters (set_filters f p)) =
               rendered_svg (x (applyFilters (set_filters f p)))
                 (y (applyFilters (set_filters f p)))
                 (filteredData f (data p))) as Hset.
    { intros f. rewrite applyFilters_svg; [reflexivity|].
      right. cbn [svg set_filters]. eauto. }
    assert (svg (applyFilters p) =
            rendered_svg (x (applyFilters p)) (y (applyFilters p))
              (filteredData (filters p) (data p))) as Hkeep.
    { apply applyFilters_svg. right. eauto. }
    destruct e as [[|]|[|]|[|]]; cbn [handle];
      first [exact (Hset _) | exact Hkeep].
Qed.

Lemma reachable_clean loaded p : reachable loaded p -> no_series_class (svg p).
Proof. intros H. rewrite (reachable_svg _ _ H). apply rendered_clean. Qed.

(** ** The marks of a redraw *)

Lemma bound_to_iff r n : bound_to r n = true <-> datum n = BoundDatum r.
Proof.
  unfold bound_to. destruct (datum n) as [|d|s|e]; try (split; discriminate).
  destruct (Datum_eq_dec d r) as [->|Hne]; split; try reflexivity;
    try discriminate.
  intros H. injection H as ->. now contradiction Hne.
Qed.

(** Among the elements made from the records that pass [q], those bound
    to [r] are as many as [r] occurs, when [r] passes. *)
Lemma count_bound (make : Datum -> Node) (q : Datum -> bool) r l :
  (forall d, datum (make d) = BoundDatum d) ->
  List.length (filter (bound_to r) (map make (filter q l))) =
  if q r then count_occ Datum_eq_dec l r else 0%nat.
Proof.
  intros Hmake. induction l as [|a l IH]; simpl.
  - now destruct (q r).
  - destruct (Datum_eq_dec a r) as [->|Hne].
    + destruct (q r) eqn:Hq; simpl; [|exact IH].
      unfold bound_to at 1. rewrite Hmake.
      destruct (Datum_eq_dec r r) as [_|Hne]; [|now contradiction Hne].
      simpl. now rewrite IH.
    + destruct (q a); simpl; [|exact IH].
      unfold bound_to at 1. rewrite Hmake.
      destruct (Datum_eq_dec a r) as [->|_]; [now contradiction Hne|].
      exact IH.
Qed.

(** Among the elements made from the records that pass [q], those bound
    to [r] are copies of the element made from [r]. *)
Lemma filter_bound (make : Datum -> Node) (q : Datum -> bool) r l :
  (forall d, datum (make d) = BoundDatum d) ->
  filter (bound_to r) (map make (filter q l)) =
  if q r then repeat (make r) (count_occ Datum_eq_dec l r) else [].
Proof.
  intros Hmake. induction l as [|a l IH]; cbn [filter map count_occ].
  - now destruct (q r).
  - destruct (Datum_eq_dec a r) as [->|Hne].
    + destruct (q r) eqn:Hq; [|exact IH].
      cbn [map filter]. unfold bound_to at 1. rewrite Hmake.
      destruct (Datum_eq_dec r r) as [_|Hne]; [|now contradiction Hne].
      cbn [repeat]. now rewrite IH.
    + destruct (q a); [|exact IH].
      cbn [map filter]. unfold bound_to at 1. rewrite Hmake.
      destruct (Datum_eq_dec a r) as [->|_]; [now contradiction Hne|].
      exact IH.
Qed.

Lemma updateChart_lines fd p :
  no_series_class (svg p) ->
  selectAll (has_class "line") (svg (updateChart fd p)) =
  drawn_lines (x p) (y p) fd.
Proof.
  intros Hclean. cbn [updateChart svg].
  rewrite (updateChart_svg_eq _ _ _ _ Hclean), selectAll_append, drawn_leaves.
  rewrite selectAll_none.
  2:{ eapply Forall_impl; [|apply (remove_all_clears ["dot"; "line"])].
      intros m. apply has_class_mark. simpl. tauto. }
  unfold drawn_lines, drawn_dots.
  rewrite !filter_app, filter_map_every, !filter_map_none by reflexivity.
  now rewrite !app_nil_r.
Qed.

Lemma updateChart_dots fd p :
  no_series_class (svg p) ->
  selectAll (has_class "dot") (svg (updateChart fd p)) =
  drawn_dots (x p) (y p) fd.
Proof.
  intros Hclean. cbn [updateChart svg].
  rewrite (updateChart_svg_eq _ _ _ _ Hclean), selectAll_append, drawn_leaves.
  rewrite selectAll_none.
  2:{ eapply Forall_impl; [|apply (remove_all_clears ["dot"; "line"])].
      intros m. apply has_class_mark. simpl. tauto. }
  unfold drawn_lines, drawn_dots.
  rewrite !filter_app, filter_map_none, !filter_map_every by reflexivity.
  reflexivity.
Qed.

(** C5.  After [updateChart] on a chart group that holds no element of a
    series class (every page the program reaches is such, see
    [reachable_clean]): the lines are those of [drawn_lines] and the dots
    those of [drawn_dots]; per record [r], there is one line for each
    occurrence of [r] among the filtered records when both its mail date
    and its receipt deadline are non-null and none otherwise, from the
    time-scale image of the mail date to that of the receipt deadline at
    the band center of its state; and for each of its three date fields
    that is non-null one dot of radius 6 per occurrence, at the
    time-scale image of that very date and the band center of its state,
    the dots of the mail date first, then those of the postmark
    deadline, then those of the receipt deadline. *)
Theorem marks_per_record (fd : list Datum) (p : Page) :
  no_series_class (svg p) ->
  let lines := selectAll (has_class "line") (svg (updateChart fd p)) in
  let dots := selectAll (has_class "dot") (svg (updateChart fd p)) in
  lines = drawn_lines (x p) (y p) fd
  /\ dots = drawn_dots (x p) (y p) fd
  /\ forall r,
       List.length (filter (bound_to r) lines) =
         (count_occ Datum_eq_dec fd r
          * (if truthy (recommended_mail_date r)
                && truthy (ballot_receipt_deadline r) then 1 else 0))%nat
       /\ List.length (filter (bound_to r) dots) =
            (count_occ Datum_eq_dec fd r * date_count r)%nat
       /\ (forall n, In n lines -> bound_to r n = true ->
             tag n = "line"
             /\ attrs n =
                  [ ("x1", APixel (time_image (x p) (recommended_mail_date r)));
                    ("x2", APixel (time_image (x p) (ballot_receipt_deadline r)));
                    ("y1", APixel (band_center (y p) (state r)));
                    ("y2", APixel (band_center (y p) (state r)));
                    ("stroke", AString "gray") ])
       /\ (forall n, In n dots -> bound_to r n = true ->
             exists date,
               (recommended_mail_date r = Some date
                \/ ballot_postmark_deadline r = Some date
                \/ ballot_receipt_deadline r = Some date)
               /\ tag n = "circle"
               /\ attrs n =
                    [ ("cx", APixel (time_image (x p) (Some date)));
                      ("cy", APixel (band_center (y p) (state r)));
                      ("r", ANumber 6) ])
       /\ filter (bound_to r) lines =
            match recommended_mail_date r, ballot_receipt_deadline r with
            | Some mail, Some receipt =>
                repeat
                  (El "line" ["line"] (BoundDatum r)
                      [ ("x1", APixel (time_image (x p) (Some mail)));
                        ("x2", APixel (time_image (x p) (Some receipt)));
                        ("y1", APixel (band_center (y p) (state r)));
                        ("y2", APixel (band_center (y p) (state r)));
                        ("stroke", AString "gray") ]
                      [] None [])
                  (count_occ Datum_eq_dec fd r)
            | _, _ => []
            end
       /\ filter (bound_to r) dots =
            match recommended_mail_date r with
            | Some mail =>
                repeat
                  (El "circle" ["dot"] (BoundDatum r)
                      [ ("cx", APixel (time_image (x p) (Some mail)));
                        ("cy", APixel (band_center (y p) (state r)));
                        ("r", ANumber 6) ]
                      [ ("fill", "#FF6F61") ] None [])
                  (count_occ Datum_eq_dec fd r)
            | None => []
            end
            ++ match ballot_postmark_deadline r with
               | Some postmark =>
                   repeat
                     (El "circle" ["dot"] (BoundDatum r)
                         [ ("cx", APixel (time_image (x p) (Some postmark)));
                           ("cy", APixel (band_center (y p) (state r)));
                           ("r", ANumber 6) ]
                         [ ("fill", "#2171B5") ] None [])
                     (count_occ Datum_eq_dec fd r)
               | None => []
               end
            ++ match ballot_receipt_deadline r with
               | Some receipt =>
                   repeat
                     (El "circle" ["dot"] (BoundDatum r)
                         [ ("cx", APixel (time_image (x p) (Some receipt)));
                           ("cy", APixel (band_center (y p) (state r)));
                           ("r", ANumber 6) ]
                         [ ("fill", "#EF61F7") ] None [])
                     (count_occ Datum_eq_dec fd r)
               | None => []
               end.
Proof.
  intros Hclean. cbv zeta.
  rewrite (updateChart_lines fd p Hclean), (updateChart_dots fd p Hclean).
  split; [reflexivity|]. split; [reflexivity|]. intros r.
  split; [|split; [|split; [|split; [|split]]]].
  - unfold drawn_lines. rewrite count_bound by reflexivity.
    destruct (truthy (recommended_mail_date r)
              && truthy (ballot_receipt_deadline r)); lia.
  - unfold drawn_dots, date_count.
    rewrite !filter_app, !length_app, !count_bound by reflexivity.
    destruct (truthy (recommended_mail_date r)),
      (truthy (ballot_postmark_deadline r)),
      (truthy (ballot_receipt_deadline r)); lia.
  - intros n Hin Hb. unfold drawn_lines in Hin.
    apply in_map_iff in Hin. destruct Hin as [d [<- _]].
    apply bound_to_iff in Hb. injection Hb as ->. split; reflexivity.
  - intros n Hin Hb. unfold drawn_dots in Hin.
    repeat (apply in_app_or in Hin; destruct Hin as [Hin|Hin]);
      apply in_map_iff in Hin; destruct Hin as [d [<- Hd]];
      apply bound_to_iff in Hb; injection Hb as ->;
      apply filter_In in Hd; destruct Hd as [_ Hd].
    + destruct (recommended_mail_date r) as [date|] eqn:E; [|discriminate].
      exists date. cbn [dot_mark tag attrs]. rewrite E. tauto.
    + destruct (ballot_postmark_deadline r) as [date|] eqn:E; [|discriminate].
      exists date. cbn [dot_mark tag attrs]. rewrite E. tauto.
    + destruct (ballot_receipt_deadline r) as [date|] eqn:E; [|discriminate].
      exists date. cbn [dot_mark tag attrs]. rewrite E. tauto.
  - unfold drawn_lines. rewrite filter_bound by reflexivity.
    unfold line_mark.
    destruct (recommended_mail_date r), (ballot_receipt_deadline r);
      reflexivity.
  - unfold drawn_dots. rewrite !filter_app, !filter_bound by reflexivity.
    unfold dot_mark, mail_fill, postmark_fill, receipt_fill.
    destruct (recommended_mail_date r), (ballot_postmark_deadline r),
      (ballot_receipt_deadline r); reflexivity.
Qed.

Lemma marks_per_record_witness :
  let p := start sample_data in
  let ohio := nth 1 sample_data (row_accessor D3.timeParse_mdY iso_row) in
  let guam := nth 2 sample_data (row_accessor D3.timeParse_mdY iso_row) in
  no_series_class (svg p)
  /\ state ohio = "Ohio" /\ state guam = "Guam"
  /\ List.length (filter (bound_to ohio)
                    (selectAll (has_class "line")
                       (svg (updateChart (data p) p)))) = 1%nat
  /\ map attrs (filter (bound_to ohio)
                  (selectAll (has_class "dot")
                     (svg (updateChart (data p) p))))
     = [ [ ("cx", APixel (time_image (x p) (Some (days_from_civil 2024 9 20))));
           ("cy", APixel (band_center (y p) "Ohio"));
           ("r", ANumber 6) ];
         [ ("cx", APixel (time_image (x p) (Some (days_from_civil 2024 11 4))));
           ("cy", APixel (band_center (y p) "Ohio"));
           ("r", ANumber 6) ] ]
  /\ List.length (filter (bound_to guam)
                    (selectAll (has_class "dot")
                       (svg (updateChart (data p) p)))) = 0%nat.
Proof.
  cbv zeta.
  assert (no_series_class (svg (start sample_data))) as Hclean
    by (unfold no_series_class; vm_compute; repeat constructor).
  split; [exact Hclean|]. split; [reflexivity|]. split; [reflexivity|].
  destruct (marks_per_record (data (start sample_data)) (start sample_data)
              Hclean) as [_ [_ Hper]].
  split; [|split].
  - rewrite (proj1 (Hper _)). reflexivity.
  - destruct (Hper (nth 1 sample_data
                        (row_accessor D3.timeParse_mdY iso_row)))
      as [_ [_ [_ [_ [_ Hdots]]]]].
    rewrite Hdots. reflexivity.
  - rewrite (proj1 (proj2 (Hper _))). reflexivity.
Defined.

(** C6.  After [updateChart] on a chart group that holds no element of a
    series class (every page the program reaches is such, see
    [reachable_clean]), whatever marks it held: the marks below the group
    are the lines and dots just drawn and nothing else; a second
    [updateChart] with the same records leaves the page as the first did;
    and the records of an earlier [updateChart] leave no trace. *)
Theorem redraw_idempotent (fd fd' : list Datum) (p : Page) :
  no_series_class (svg p) ->
  selectAll is_mark (svg (updateChart fd p)) =
    drawn_lines (x p) (y p) fd ++ drawn_dots (x p) (y p) fd
  /\ updateChart fd (updateChart fd p) = updateChart fd p
  /\ updateChart fd (updateChart fd' p) = updateChart fd p
  /\ selectAll is_mark (svg (updateChart fd (updateChart fd p))) =
       selectAll is_mark (svg (updateChart fd p))
  /\ no_series_class (svg (updateChart fd p)).
Proof.
  intros Hclean.
  assert (forall fd0, updateChart fd (updateChart fd0 p) = updateChart fd p)
    as Hagain.
  { intros fd0. unfold updateChart. cbn [data filters x y svg].
    now rewrite updateChart_svg_again. }
  split; [|split; [|split; [|split]]].
  - apply updateChart_svg_marks, Hclean.
  - apply Hagain.
  - apply Hagain.
  - now rewrite Hagain.
  - apply updateChart_svg_clean, Hclean.
Qed.

Lemma redraw_idempotent_witness :
  let p := start sample_data in
  let post_only :=
    filteredData {| all := false; post := true; postElectronic := false |}
      (data p) in
  no_series_class (svg p)
  /\ List.length (selectAll is_mark (svg p)) = 7%nat
  /\ List.length (selectAll is_mark (svg (updateChart post_only p))) = 2%nat
  /\ updateChart post_only (updateChart post_only p) = updateChart post_only p
  /\ updateChart post_only (updateChart (data p) p) = updateChart post_only p.
Proof.
  cbv zeta.
  assert (no_series_class (svg (start sample_data))) as Hclean
    by (unfold no_series_class; vm_compute; repeat constructor).
  split; [exact Hclean|]. split; [reflexivity|]. split; [reflexivity|].
  destruct (redraw_idempotent
              (filteredData
                 {| all := false; post := true; postElectronic := false |}
                 (data (start sample_data)))
              (data (start sample_data)) (start sample_data) Hclean)
    as [_ [Hsame [Hother _]]].
  split; [exact Hsame | exact Hother].
Defined.

(** ** The legend colors and the dot fills *)

(** C10.  The legend circles are filled "#FF5733", "#3F78E7" and
    "#EF61F7"; the dots [updateChart] draws are filled "#FF6F61" (those at
    the mail date), "#2171B5" (those at the postmark deadline) and
    "#EF61F7" (those at the receipt deadline).  The first two legend
    colors differ from their series, the third is the same. *)
Theorem legend_colors_and_dot_fills :
  legendData =
    [ {| label := "Recommended Mail Date"; color := "#FF5733" |};
      {| label := "Ballot Postmark Deadline"; color := "#3F78E7" |};
      {| label := "Ballot Receipt Deadline"; color := "#EF61F7" |} ]
  /\ map style (filter (fun n => (tag n =? "circle")%string) (kids legend))
     = [ [("fill", "#FF5733")]; [("fill", "#3F78E7")]; [("fill", "#EF61F7")] ]
  /\ (forall x y fd n,
        In n (drawn_dots x y fd) ->
        exists d,
          n = dot_mark x y recommended_mail_date "#FF6F61" d
          \/ n = dot_mark x y ballot_postmark_deadline "#2171B5" d
          \/ n = dot_mark x y ballot_receipt_deadline "#EF61F7" d)
  /\ map color legendData <> [mail_fill; postmark_fill; receipt_fill]
  /\ nth_error (map color legendData) 0 <> Some mail_fill
  /\ nth_error (map color legendData) 1 <> Some postmark_fill
  /\ nth_error (map color legendData) 2 = Some receipt_fill
  /\ (forall fd p,
        no_series_class (svg p) ->
        selectAll (has_class "dot") (svg (updateChart fd p)) =
        map (fun d =>
               El "circle" ["dot"] (BoundDatum d)
                  [ ("cx", APixel (time_image (x p) (recommended_mail_date d)));
                    ("cy", APixel (band_center (y p) (state d)));
                    ("r", ANumber 6) ]
                  [ ("fill", "#FF6F61") ] None [])
            (filter (fun d => truthy (recommended_mail_date d)) fd)
        ++ map (fun d =>
                  El "circle" ["dot"] (BoundDatum d)
                     [ ("cx", APixel (time_image (x p)
                                        (ballot_postmark_deadline d)));
                       ("cy", APixel (band_center (y p) (state d)));
                       ("r", ANumber 6) ]
                     [ ("fill", "#2171B5") ] None [])
               (filter (fun d => truthy (ballot_postmark_deadline d)) fd)
        ++ map (fun d =>
                  El "circle" ["dot"] (BoundDatum d)
                     [ ("cx", APixel (time_image (x p)
                                        (ballot_receipt_deadline d)));
                       ("cy", APixel (band_center (y p) (state d)));
                       ("r", ANumber 6) ]
                     [ ("fill", "#EF61F7") ] None [])
               (filter (fun d => truthy (ballot_receipt_deadline d)) fd))
  /\ "#FF5733" <> "#FF6F61" /\ "#3F78E7" <> "#2171B5".
Proof.
  split; [reflexivity|]. split; [reflexivity|]. split.
  - intros x y fd n Hin. unfold drawn_dots in Hin.
    repeat (apply in_app_or in Hin; destruct Hin as [Hin|Hin]);
      apply in_map_iff in Hin; destruct Hin as [d [<- _]]; exists d; auto.
  - split; [discriminate|]. split; [discriminate|]. split; [discriminate|].
    split; [reflexivity|]. split.
    + intros fd p Hclean. rewrite (updateChart_dots fd p Hclean).
      reflexivity.
    + split; discriminate.
Qed.

Lemma legend_colors_and_dot_fills_witness :
  let p := start sample_data in
  no_series_class (svg p)
  /\ map style (selectAll (has_class "dot") (svg (updateChart sample_data p)))
     = [ [("fill", "#FF6F61")]; [("fill", "#FF6F61")];
         [("fill", "#2171B5")]; [("fill", "#2171B5")];
         [("fill", "#EF61F7")]; [("fill", "#EF61F7")] ].
Proof.
  cbv zeta.
  assert (no_series_class (svg (start sample_data))) as Hclean
    by (unfold no_series_class; vm_compute; repeat constructor).
  split; [exact Hclean|].
  destruct legend_colors_and_dot_fills
    as [_ [_ [_ [_ [_ [_ [_ [Hdots _]]]]]]]].
  rewrite (Hdots sample_data (start sample_data) Hclean).
  reflexivity.
Defined.

(** ** The tick labels *)

Lemma flat_map_nil {A B} (f : A -> list B) (l : list A) :
  Forall (fun a => f a = []) l -> flat_map f l = [].
Proof.
  induction 1 as [|a l Ha Hl IH]; simpl; [reflexivity|]. now rewrite Ha, IH.
Qed.

Lemma tick_texts_axis domain :
  tick_texts false false (styled_axis domain) = map styled_label domain.
Proof.
  unfold styled_axis. rewrite tick_texts_eq.
  cbn [tag kids andb orb has_class class existsb String.eqb Ascii.eqb
       Bool.eqb app flat_map].
  change (tick_texts true false (El "path" ["domain"] Unbound [] [] None []))
    with (@nil Node).
  cbn [app].
  induction domain as [|s domain IH]; [reflexivity|].
  cbn [map flat_map]. rewrite IH. reflexivity.
Qed.

Lemma tick_texts_rendered x y fd :
  tick_texts false false (rendered_svg x y fd) =
  map styled_label (band_domain y).
Proof.
  unfold rendered_svg, frame_with. rewrite tick_texts_eq.
  cbn [tag kids andb orb has_class class existsb app flat_map].
  change (tick_texts false false x_axis_group) with (@nil Node).
  change (tick_texts false false x_axis_caption) with (@nil Node).
  change (tick_texts false false legend) with (@nil Node).
  cbn [app]. rewrite tick_texts_axis, flat_map_nil; [apply app_nil_r|].
  unfold drawn_lines, drawn_dots.
  repeat (apply Forall_app; split);
    apply Forall_forall; intros n Hin; apply in_map_iff in Hin;
    destruct Hin as [d [<- _]]; reflexivity.
Qed.

Lemma includes_In l s : JS.includes l s = true <-> In s l.
Proof. apply existsb_eqb_In. Qed.

(** C7.  On every page the program reaches, the elements that
    ['.y-axis .tick text'] selects are one label per state of the band
    domain, in order; the label of a state bears the single class
    [highlighted-tick] when the state is one of the eleven
    [highlightedStates] and the single class [normal-tick] otherwise.
    So "Wisconsin" bears [highlighted-tick] and "Texas" [normal-tick],
    whatever the filter.  The same holds of a y axis rendered and styled
    for any band domain. *)
Theorem tick_labels_classified (loaded : list Datum) (p : Page) :
  reachable loaded p ->
  tick_texts false false (svg p) = map styled_label (band_domain (y p))
  /\ (forall n, In n (tick_texts false false (svg p)) ->
        exists s,
          In s (band_domain (y p))
          /\ datum n = BoundState s /\ text n = Some s
          /\ (In s highlightedStates -> class n = ["highlighted-tick"])
          /\ (~ In s highlightedStates -> class n = ["normal-tick"]))
  /\ (forall n, In n (tick_texts false false (svg p)) ->
        (datum n = BoundState "Wisconsin" -> class n = ["highlighted-tick"])
        /\ (datum n = BoundState "Texas" -> class n = ["normal-tick"]))
  /\ highlightedStates =
       [ "Pennsylvania"; "Georgia"; "North Carolina"; "Wisconsin";
         "Michigan"; "Arizona"; "Nevada"; "Nebraska"; "New Hampshire";
         "Ohio"; "Montana" ]
  /\ (forall y,
        tick_texts false false
          (styleHighlightedStatesYAxis (renderYAxis y (frame_with []))
             highlightedStates)
        = map styled_label (band_domain y)).
Proof.
  intros Hreach.
  assert (tick_texts false false (svg p) =
          map styled_label (band_domain (y p))) as Hticks
    by (rewrite (reachable_svg _ _ Hreach); apply tick_texts_rendered).
  split; [exact Hticks|]. rewrite Hticks.
  split; [|split; [|split; [reflexivity|]]].
  - intros n Hin. apply in_map_iff in Hin. destruct Hin as [s [<- Hs]].
    exists s. split; [exact Hs|]. split; [reflexivity|].
    split; [reflexivity|].
    unfold styled_label, tick_class. cbn [class].
    destruct (JS.includes highlightedStates s) eqn:E; split; intros H;
      try reflexivity.
    + apply includes_In in E. now contradiction H.
    + apply includes_In in H. congruence.
  - intros n Hin. apply in_map_iff in Hin. destruct Hin as [s [<- Hs]].
    split; intros H; injection H as ->; reflexivity.
  - intros y0.
    assert (styleHighlightedStatesYAxis (renderYAxis y0 (frame_with []))
              highlightedStates =
            frame_with [styled_axis (band_domain y0)]) as ->.
    { unfold styleHighlightedStatesYAxis, renderYAxis, frame_with.
      cbn [append_children app]. rewrite style_ticks_eq.
      cbn [andb orb has_class class existsb map].
      now rewrite style_rendered_axis. }
    apply (tick_texts_rendered (x p) y0 []).
Qed.

Lemma tick_labels_classified_witness :
  let p := handle (change_postElectronic true) (start sample_data) in
  reachable sample_data p
  /\ band_domain (y p) = ["Ohio"]
  /\ map class (tick_texts false false (svg p)) = [["highlighted-tick"]]
  /\ map class (tick_texts false false (svg (start sample_data)))
     = [["highlighted-tick"]; ["highlighted-tick"]; ["normal-tick"];
        ["normal-tick"]].
Proof.
  cbv zeta.
  assert (reachable sample_data
            (handle (change_postElectronic true) (start sample_data)))
    as Hreach by (constructor; constructor).
  split; [exact Hreach|]. split; [reflexivity|].
  split.
  - rewrite (proj1 (tick_labels_classified sample_data _ Hreach)).
    reflexivity.
  - rewrite (proj1 (tick_labels_classified sample_data _
                      (reach_start sample_data))).
    reflexivity.
Defined.


(** * Further properties of the script *)

(** ** The page as a function of the records and the filter flags *)

Lemma applyFilters_page_of loaded f g :
  applyFilters (set_filters f (page_of loaded g)) = page_of loaded f.
Proof.
  unfold applyFilters, updateChart, page_of.
  cbn [data filters x y svg set_filters].
  rewrite select_remove_rendered, redraw_on_frame.
  reflexivity.
Qed.

Lemma start_page_of loaded : start loaded = page_of loaded initial_filters.
Proof.
  unfold start, applyFilters, updateChart, page_of.
  rewrite setup_svg. cbn [data filters x y svg setup].
  rewrite select_remove_setup.
  rewrite <- (drawn_nothing (x_scale (JS.sort compare_by_mail_date loaded))
                (y_scale (JS.sort compare_by_mail_date loaded))).
  rewrite redraw_on_frame. reflexivity.
Qed.

Lemma handle_page_of loaded e g :
  exists f, handle e (page_of loaded g) = page_of loaded f
            /\ (event_checked e = false -> f = g)
            /\ (event_checked e = true -> f = filters (handle e (page_of loaded g))).
Proof.
  assert (applyFilters (page_of loaded g) = page_of loaded g) as Hsame
    by apply (applyFilters_page_of loaded g g).
  destruct e as [[|]|[|]|[|]]; cbn [handle event_checked];
    first [ exists g; split; [exact Hsame|]; split; [reflexivity | discriminate]
          | eexists; split; [apply applyFilters_page_of|];
            split; [discriminate | reflexivity] ].
Qed.

Lemma reachable_page_of loaded p :
  reachable loaded p -> p = page_of loaded (filters p).
Proof.
  induction 1 as [|e p Hreach IH].
  - now rewrite start_page_of.
  - rewrite IH. destruct (handle_page_of loaded e (filters p)) as [f [-> _]].
    reflexivity.
Qed.

Lemma handle_filters_same e p q :
  event_checked e = true -> filters (handle e p) = filters (handle e q).
Proof. destruct e as [[|]|[|]|[|]]; intros H; try discriminate; reflexivity. Qed.

Lemma reachable_same_flags loaded a b :
  reachable loaded a -> reachable loaded b ->
  filters a = filters b -> a = b.
Proof.
  intros Ha Hb Hf.
  rewrite (reachable_page_of _ _ Ha), (reachable_page_of _ _ Hb).
  now rewrite Hf.
Qed.

Lemma handle_after_handle loaded p e e' :
  reachable loaded p -> event_checked e = true ->
  handle e (handle e' p) = handle e p.
Proof.
  intros Hp He. apply (reachable_same_flags loaded).
  - constructor. now constructor.
  - now constructor.
  - now apply handle_filters_same.
Qed.

(** X1.  The page does not depend on the history of events: two pages
    the program reaches from the same records with the same filter flags
    are equal, and after a change event whose input is checked the page
    is the same whatever event came before. *)
Theorem page_forgets_history (loaded : list Datum) (p : Page) :
  reachable loaded p ->
  (forall q, reachable loaded q -> filters p = filters q -> p = q)
  /\ (forall e e', event_checked e = true ->
                   handle e (handle e' p) = handle e p).
Proof.
  intros Hp.
  split; [intros q; now apply reachable_same_flags|].
  intros e e' He. now apply (handle_after_handle loaded).
Qed.

Lemma page_forgets_history_witness :
  let p := start sample_data in
  reachable sample_data p
  /\ handle (change_post true) (handle (change_postElectronic true) p)
     = handle (change_post true) p.
Proof.
  cbv zeta. split; [constructor|].
  apply (proj2 (page_forgets_history sample_data (start sample_data)
                  (reach_start sample_data))).
  reflexivity.
Defined.

(** X2.  On a page the program has reached, running [applyFilters] again
    changes nothing; so a change event whose input is not checked leaves
    the page exactly as it is, and every change event is idempotent. *)
Theorem unchecked_change_is_noop (loaded : list Datum) (p : Page) :
  reachable loaded p ->
  applyFilters p = p
  /\ (forall e, event_checked e = false -> handle e p = p)
  /\ (forall e, handle e (handle e p) = handle e p).
Proof.
  intros Hp.
  assert (forall q, reachable loaded q -> applyFilters q = q) as Hsame.
  { intros q Hq. rewrite (reachable_page_of _ _ Hq).
    apply (applyFilters_page_of loaded (filters q) (filters q)). }
  assert (forall q e, reachable loaded q -> event_checked e = false ->
                      handle e q = q) as Hnoop.
  { intros q e Hq He.
    destruct e as [[|]|[|]|[|]]; try discriminate; cbn [handle];
      now apply Hsame. }
  split; [now apply Hsame|]. split; [intros e; now apply Hnoop|].
  intros e. destruct (event_checked e) eqn:He.
  - now apply (handle_after_handle loaded).
  - rewrite (Hnoop p e Hp He). now apply Hnoop.
Qed.

Lemma unchecked_change_is_noop_witness :
  let p := handle (change_post true) (start sample_data) in
  reachable sample_data p
  /\ handle (change_all false) p = p.
Proof.
  cbv zeta.
  assert (reachable sample_data
            (handle (change_post true) (start sample_data))) as Hreach
    by (constructor; constructor).
  split; [exact Hreach|].
  apply (proj1 (proj2 (unchecked_change_is_noop sample_data _ Hreach))).
  reflexivity.
Defined.

Lemma filteredData_all f records :
  all f = true -> filteredData f records = records.
Proof.
  intros Ha. apply filter_all_true. intros d. now apply keep_all.
Qed.

(** X3.  Whenever the [all] flag is set, the other two flags do not
    matter: every record is shown, as after selecting "all".  This is the
    case on the page first rendered, where all three flags are set. *)
Theorem all_flag_dominates (loaded : list Datum) (p : Page) :
  reachable loaded p ->
  all (filters p) = true ->
  filteredData (filters p) (data p) = data p
  /\ y p = y (handle (change_all true) p)
  /\ svg p = svg (handle (change_all true) p).
Proof.
  intros Hp Ha.
  split; [now apply filteredData_all|].
  rewrite (reachable_page_of _ _ Hp). cbn [handle].
  rewrite applyFilters_page_of. unfold page_of. cbn [y svg].
  rewrite !(filteredData_all (filters p)) by exact Ha.
  rewrite !filteredData_all by reflexivity.
  split; reflexivity.
Qed.

Lemma all_flag_dominates_witness :
  let p := start sample_data in
  reachable sample_data p
  /\ filters p = {| all := true; post := true; postElectronic := true |}
  /\ svg p = svg (handle (change_all true) p).
Proof.
  cbv zeta. split; [constructor|]. split; [reflexivity|].
  apply (proj2 (proj2 (all_flag_dominates sample_data (start sample_data)
                         (reach_start sample_data) eq_refl))).
Defined.

(** ** What the chart group holds on a reachable page *)

Lemma rendered_descendants x y fd :
  descendants (rendered_svg x y fd) =
  flat_map subtree [x_axis_group; x_axis_caption; legend]
  ++ (styled_axis (band_domain y) :: descendants (styled_axis (band_domain y)))
  ++ drawn_lines x y fd ++ drawn_dots x y fd.
Proof.
  unfold rendered_svg. rewrite frame_with_descendants. f_equal.
  change (styled_axis (band_domain y)
          :: drawn_lines x y fd ++ drawn_dots x y fd)
    with ([styled_axis (band_domain y)]
          ++ (drawn_lines x y fd ++ drawn_dots x y fd)).
  rewrite flat_map_app, drawn_leaves. cbn [flat_map].
  now rewrite app_nil_r, subtree_eq.
Qed.

(** A selector on class names that matches nothing of the frame and of
    the y axis selects among the marks only. *)
Lemma selectAll_rendered_marks cs x y fd :
  existsb (String.eqb "highlighted-tick") cs = false ->
  existsb (String.eqb "normal-tick") cs = false ->
  existsb (String.eqb "tick") cs = false ->
  existsb (String.eqb "domain") cs = false ->
  existsb (String.eqb "y-axis") cs = false ->
  filter (has_any_class cs)
         (flat_map subtree [x_axis_group; x_axis_caption; legend]) = [] ->
  selectAll (has_any_class cs) (rendered_svg x y fd) =
  filter (has_any_class cs) (drawn_lines x y fd ++ drawn_dots x y fd).
Proof.
  intros Hh Hn Ht Hd Hy Hstatic. unfold selectAll.
  rewrite rendered_descendants, !filter_app, Hstatic. cbn [app filter].
  assert (has_any_class cs (styled_axis (band_domain y)) = false) as ->.
  { unfold has_any_class, has_class, styled_axis. cbn [class].
    clear - Hy. induction cs as [|c cs IH]; cbn [existsb] in *; [reflexivity|].
    apply Bool.orb_false_iff in Hy. destruct Hy as [Hy1 Hy2].
    now rewrite (IH Hy2), String.eqb_sym, Hy1. }
  rewrite (filter_none (has_any_class cs)
             (descendants (styled_axis (band_domain y)))).
  - reflexivity.
  - now apply styled_axis_subtree_no_class.
Qed.

Lemma reachable_marks loaded p :
  reachable loaded p ->
  selectAll is_mark (svg p) =
  drawn_lines (x p) (y p) (filteredData (filters p) (data p))
  ++ drawn_dots (x p) (y p) (filteredData (filters p) (data p)).
Proof.
  intros Hp. rewrite (reachable_svg _ _ Hp). unfold is_mark.
  rewrite selectAll_rendered_marks by reflexivity.
  apply filter_every, drawn_are_marks.
Qed.

Lemma reachable_band_domain loaded p :
  reachable loaded p ->
  band_domain (y p) =
  JS.new_Set (map state (filteredData (filters p) (data p))).
Proof.
  intros Hp. rewrite (reachable_page_of _ _ Hp) at 1.
  unfold page_of. cbn [y set_band_domain band_domain].
  rewrite ordinal_domain_new_Set.
  now rewrite <- (reachable_data _ _ Hp).
Qed.

Lemma drawn_mark_inv x y fd n :
  In n (drawn_lines x y fd ++ drawn_dots x y fd) ->
  exists d,
    In d fd /\ datum n = BoundDatum d /\ 0 < Z.of_nat (date_count d)
    /\ (In ("y1", APixel (band_center y (state d))) (attrs n)
        \/ In ("cy", APixel (band_center y (state d))) (attrs n)).
Proof.
  unfold drawn_lines, drawn_dots, date_count. intros Hin.
  repeat (apply in_app_or in Hin; destruct Hin as [Hin|Hin]);
    apply in_map_iff in Hin; destruct Hin as [d [<- Hd]];
    apply filter_In in Hd; destruct Hd as [Hd Hq]; exists d;
    (split; [exact Hd|]); (split; [reflexivity|]).
  - apply Bool.andb_true_iff in Hq. destruct Hq as [-> _].
    split; [lia|]. left. simpl. tauto.
  - rewrite Hq. split; [lia|]. right. simpl. tauto.
  - rewrite Hq. split; [|right; simpl; tauto].
    destruct (truthy (recommended_mail_date d)); lia.
  - rewrite Hq. split; [|right; simpl; tauto].
    destruct (truthy (recommended_mail_date d)),
      (truthy (ballot_postmark_deadline d)); lia.
Qed.

(** X4.  On every page the program reaches, the lines and dots below the
    chart group are exactly those of the records that pass the current
    filter; each is bound to such a record, which has at least one date,
    and is centered on a band that the y axis has: its state is in the
    band domain at the time it was drawn. *)
Theorem marks_follow_filter (loaded : list Datum) (p : Page) :
  reachable loaded p ->
  let fd := filteredData (filters p) (data p) in
  selectAll is_mark (svg p) =
    drawn_lines (x p) (y p) fd ++ drawn_dots (x p) (y p) fd
  /\ forall n, In n (selectAll is_mark (svg p)) ->
       exists d,
         In d (data p) /\ keep (filters p) d = true
         /\ datum n = BoundDatum d
         /\ 0 < Z.of_nat (date_count d)
         /\ In (state d) (band_domain (y p))
         /\ (In ("y1", APixel (band_center (y p) (state d))) (attrs n)
             \/ In ("cy", APixel (band_center (y p) (state d))) (attrs n)).
Proof.
  intros Hp. cbv zeta. split; [now apply (reachable_marks loaded)|].
  intros n Hin. rewrite (reachable_marks _ _ Hp) in Hin.
  apply drawn_mark_inv in Hin. destruct Hin as [d [Hd [Hb [Hc Hy]]]].
  exists d. unfold filteredData in Hd. apply filter_In in Hd as Hd'.
  destruct Hd' as [Hdata Hkeep].
  repeat (split; [assumption|]). split; [|exact Hy].
  rewrite (reachable_band_domain _ _ Hp). apply new_Set_In.
  apply in_map. exact Hd.
Qed.

Lemma marks_follow_filter_witness :
  let p := handle (change_post true) (start sample_data) in
  reachable sample_data p
  /\ map tag (selectAll is_mark (svg p)) = ["circle"; "circle"]
  /\ forall n, In n (selectAll is_mark (svg p)) ->
       exists d, In d (data p) /\ keep (filters p) d = true
                 /\ datum n = BoundDatum d
                 /\ In (state d) (band_domain (y p)).
Proof.
  cbv zeta.
  assert (reachable sample_data
            (handle (change_post true) (start sample_data))) as Hreach
    by (constructor; constructor).
  split; [exact Hreach|]. split; [reflexivity|].
  intros n Hin.
  destruct (proj2 (marks_follow_filter sample_data _ Hreach) n Hin)
    as [d [H1 [H2 [H3 [_ [H4 _]]]]]].
  exists d. tauto.
Defined.

(** X5.  A redraw never leaves a stale axis behind: on every page the
    program reaches there is exactly one element of class [y-axis], the
    styled axis of the current band domain. *)
Theorem one_y_axis (loaded : list Datum) (p : Page) :
  reachable loaded p ->
  selectAll (has_class "y-axis") (svg p) = [styled_axis (band_domain (y p))].
Proof.
  intros Hp. rewrite (reachable_svg _ _ Hp). unfold selectAll.
  rewrite rendered_descendants, !filter_app.
  change (filter (has_class "y-axis")
            (flat_map subtree [x_axis_group; x_axis_caption; legend]))
    with (@nil Node).
  cbn [app filter].
  change (has_class "y-axis" (styled_axis (band_domain (y p)))) with true.
  cbv iota.
  rewrite (filter_none (has_class "y-axis")
             (descendants (styled_axis (band_domain (y p))))).
  - rewrite <- filter_app, filter_none; [reflexivity|].
    pose proof (drawn_outside_axis (x p) (y p)
                  (filteredData (filters p) (data p))) as Hout.
    eapply Forall_impl; [|exact Hout]. intros m Hm. cbv beta in Hm.
    rewrite subtree_eq in Hm. now inversion Hm.
  - pose proof (styled_axis_subtree_no_class ["y-axis"]
                  (band_domain (y p)) eq_refl eq_refl eq_refl eq_refl) as H.
    eapply Forall_impl; [|exact H]. intros m Hm. cbv beta in Hm.
    unfold has_any_class in Hm. cbn [existsb] in Hm.
    now rewrite Bool.orb_false_r in Hm.
Qed.

Lemma one_y_axis_witness :
  let p := handle (change_post true)
             (handle (change_postElectronic true) (start sample_data)) in
  reachable sample_data p
  /\ List.length (selectAll (has_class "y-axis") (svg p)) = 1%nat.
Proof.
  cbv zeta.
  assert (reachable sample_data
            (handle (change_post true)
               (handle (change_postElectronic true) (start sample_data))))
    as Hreach by (repeat constructor).
  split; [exact Hreach|].
  now rewrite (one_y_axis sample_data _ Hreach).
Defined.

Lemma reachable_ticks loaded p :
  reachable loaded p ->
  tick_texts false false (svg p) = map styled_label (band_domain (y p)).
Proof.
  intros Hp. rewrite (reachable_svg _ _ Hp). apply tick_texts_rendered.
Qed.

(** X6.  On every page the program reaches, the tick labels are those of
    the states of the records that pass the filter: every such record
    has its label, dates or not, and every label is the state of such a
    record.  A record whose three dates are null has no line and no
    dot. *)
Theorem ticks_follow_filter (loaded : list Datum) (p : Page) :
  reachable loaded p ->
  let fd := filteredData (filters p) (data p) in
  (forall d, In d fd ->
     In (styled_label (state d)) (tick_texts false false (svg p)))
  /\ (forall n, In n (tick_texts false false (svg p)) ->
        exists d, In d fd /\ n = styled_label (state d))
  /\ (forall d, date_count d = 0%nat ->
        forall n, In n (selectAll is_mark (svg p)) -> bound_to d n = false).
Proof.
  intros Hp. cbv zeta.
  rewrite (reachable_ticks _ _ Hp), (reachable_band_domain _ _ Hp).
  split; [|split].
  - intros d Hd. apply in_map. apply new_Set_In. now apply in_map.
  - intros n Hin. apply in_map_iff in Hin. destruct Hin as [s [<- Hs]].
    apply (proj1 (new_Set_In _ _)) in Hs. apply in_map_iff in Hs.
    destruct Hs as [d [<- Hd]]. now exists d.
  - intros d Hnone n Hin. rewrite (reachable_marks _ _ Hp) in Hin.
    apply drawn_mark_inv in Hin. destruct Hin as [d' [_ [Hb [Hc _]]]].
    destruct (bound_to d n) eqn:E; [|reflexivity].
    apply bound_to_iff in E. rewrite E in Hb. injection Hb as <-.
    rewrite Hnone in Hc. simpl in Hc. lia.
Qed.

Lemma ticks_follow_filter_witness :
  let p := handle (change_post true) (start sample_data) in
  let guam := nth 2 (data p) (row_accessor D3.timeParse_mdY iso_row) in
  reachable sample_data p
  /\ state guam = "Guam"
  /\ date_count guam = 0%nat
  /\ In (styled_label "Guam") (tick_texts false false (svg p))
  /\ forall n, In n (selectAll is_mark (svg p)) -> bound_to guam n = false.
Proof.
  cbv zeta.
  assert (reachable sample_data
            (handle (change_post true) (start sample_data))) as Hreach
    by (constructor; constructor).
  destruct (ticks_follow_filter sample_data _ Hreach) as [Hhas [_ Hnone]].
  split; [exact Hreach|]. split; [reflexivity|]. split; [reflexivity|].
  split.
  - apply (Hhas (nth 2 (data (handle (change_post true) (start sample_data)))
                     (row_accessor D3.timeParse_mdY iso_row))).
    vm_compute. left. reflexivity.
  - apply Hnone. reflexivity.
Defined.

(** ** The legend *)

Lemma legend_circles_nth entries :
  forall i k e,
    nth_error entries k = Some e ->
    nth_error (legend_circles i entries) k =
    Some (El "circle" [] (BoundLegend e)
             [ ("cx", ANumber ((i + Z.of_nat k) * 200));
               ("cy", ANumber 0); ("r", ANumber 6) ]
             [ ("fill", color e) ] None []).
Proof.
  induction entries as [|d rest IH]; intros i k e Hk.
  - destruct k; discriminate.
  - destruct k as [|k].
    + injection Hk as ->. cbn [legend_circles nth_error].
      now replace (i + Z.of_nat 0) with i by lia.
    + cbn [legend_circles nth_error] in *. rewrite (IH (i + 1) k e Hk).
      now replace (i + 1 + Z.of_nat k) with (i + Z.of_nat (S k)) by lia.
Qed.

Lemma legend_texts_nth entries :
  forall i k e,
    nth_error entries k = Some e ->
    nth_error (legend_texts i entries) k =
    Some (El "text" [] (BoundLegend e)
             [ ("x", ANumber ((i + Z.of_nat k) * 200 + 10));
               ("y", ANumber 4) ]
             [ ("font-size", "14px"); ("fill", "#333") ]
             (Some (label e)) []).
Proof.
  induction entries as [|d rest IH]; intros i k e Hk.
  - destruct k; discriminate.
  - destruct k as [|k].
    + injection Hk as ->. cbn [legend_texts nth_error].
      now replace (i + Z.of_nat 0) with i by lia.
    + cbn [legend_texts nth_error] in *. rewrite (IH (i + 1) k e Hk).
      now replace (i + 1 + Z.of_nat k) with (i + Z.of_nat (S k)) by lia.
Qed.

(** X7.  The legend is laid out by index: the k-th entry (from 0) is a
    circle of radius 6 at cx = 200 k filled with the entry's color, and a
    text at x = 200 k + 10 showing the entry's label.  No redraw touches
    it: on every page the program reaches the chart group holds the
    legend once, as first drawn, and none of its elements is a mark that
    [updateChart] would remove. *)
Theorem legend_layout_and_persistence (loaded : list Datum) (p : Page) :
  reachable loaded p ->
  (forall k e,
     nth_error legendData k = Some e ->
     nth_error (kids legend) k =
       Some (El "circle" [] (BoundLegend e)
                [ ("cx", ANumber (Z.of_nat k * 200));
                  ("cy", ANumber 0); ("r", ANumber 6) ]
                [ ("fill", color e) ] None [])
     /\ nth_error (kids legend) (List.length legendData + k) =
          Some (El "text" [] (BoundLegend e)
                   [ ("x", ANumber (Z.of_nat k * 200 + 10));
                     ("y", ANumber 4) ]
                   [ ("font-size", "14px"); ("fill", "#333") ]
                   (Some (label e)) []))
  /\ selectAll (has_class "legend") (svg p) = [legend]
  /\ Forall (fun n => is_mark n = false) (subtree legend).
Proof.
  intros Hp. split; [|split].
  - intros k e Hk. unfold legend. cbn [kids]. split.
    + rewrite nth_error_app1.
      * apply (legend_circles_nth legendData 0 k e Hk).
      * apply nth_error_Some. rewrite (legend_circles_nth _ 0 k e Hk).
        discriminate.
    + rewrite nth_error_app2 by (simpl; lia).
      replace (List.length legendData + k
               - List.length (legend_circles 0 legendData))%nat
        with k by (simpl; lia).
      apply (legend_texts_nth legendData 0 k e Hk).
  - rewrite (reachable_svg _ _ Hp). unfold selectAll.
    rewrite rendered_descendants, !filter_app.
    change (filter (has_class "legend")
              (flat_map subtree [x_axis_group; x_axis_caption; legend]))
      with [legend].
    cbn [filter].
    change (has_class "legend" (styled_axis (band_domain (y p)))) with false.
    cbv iota.
    rewrite (filter_none (has_class "legend")
               (descendants (styled_axis (band_domain (y p))))).
    + unfold drawn_lines, drawn_dots.
      rewrite !filter_app, !filter_map_none by reflexivity. reflexivity.
    + pose proof (styled_axis_subtree_no_class ["legend"]
                    (band_domain (y p)) eq_refl eq_refl eq_refl eq_refl) as H.
      eapply Forall_impl; [|exact H]. intros m Hm. cbv beta in Hm.
      unfold has_any_class in Hm. cbn [existsb] in Hm.
      now rewrite Bool.orb_false_r in Hm.
  - repeat constructor.
Qed.

Lemma legend_layout_and_persistence_witness :
  let p := handle (change_post true) (start sample_data) in
  reachable sample_data p
  /\ selectAll (has_class "legend") (svg p) = [legend]
  /\ option_map attrs (nth_error (kids legend) 2)
     = Some [ ("cx", ANumber 400); ("cy", ANumber 0); ("r", ANumber 6) ].
Proof.
  cbv zeta.
  assert (reachable sample_data
            (handle (change_post true) (start sample_data))) as Hreach
    by (constructor; constructor).
  destruct (legend_layout_and_persistence sample_data _ Hreach)
    as [Hnth [Hsel _]].
  split; [exact Hreach|]. split; [exact Hsel|].
  rewrite (proj1 (Hnth 2%nat _ eq_refl)). reflexivity.
Defined.

(** ** The branch of the filter with no flag set *)

(** X8.  With none of the three flags set (the last branch of the filter,
    which no handler leads to), [applyFilters] shows an empty chart: the
    frame and the legend with an axis without ticks, no line and no dot;
    the records and the time scale stay. *)
Theorem no_flag_empties_chart (loaded : list Datum) (p : Page)
    (f : FilterState) :
  reachable loaded p ->
  all f = false -> post f = false -> postElectronic f = false ->
  let q := applyFilters (set_filters f p) in
  svg q = frame_with [styled_axis []]
  /\ band_domain (y q) = []
  /\ selectAll is_mark (svg q) = []
  /\ data q = data p /\ x q = x p.
Proof.
  intros Hp Ha Hpo He. cbv zeta.
  assert (forall records, filteredData f records = []) as Hnone.
  { intros records. apply filter_all_false. intros d. unfold keep.
    now rewrite Ha, Hpo, He. }
  rewrite (reachable_page_of _ _ Hp), applyFilters_page_of.
  unfold page_of. cbn [svg y data x set_band_domain band_domain].
  rewrite Hnone. repeat split; reflexivity.
Qed.

Lemma no_flag_empties_chart_witness :
  let p := start sample_data in
  let none := {| all := false; post := false; postElectronic := false |} in
  reachable sample_data p
  /\ svg (applyFilters (set_filters none p)) = frame_with [styled_axis []].
Proof.
  cbv zeta. split; [constructor|].
  apply (no_flag_empties_chart sample_data (start sample_data)
           {| all := false; post := false; postElectronic := false |}
           (reach_start sample_data) eq_refl eq_refl eq_refl).
Defined.

(** ** The loaded records and the scales *)

(** X9.  No row is lost or added on the way to the page: the records of
    every page the program reaches are a permutation of the records the
    row accessor makes of the CSV rows, one per row, malformed dates or
    not. *)
Theorem every_row_becomes_a_record
    (parseDate : string -> option Date) (rows : list Row) (p : Page) :
  reachable (map (row_accessor parseDate) rows) p ->
  Permutation (map (row_accessor parseDate) rows) (data p)
  /\ List.length (data p) = List.length rows
  /\ forall r, In r rows -> In (row_accessor parseDate r) (data p).
Proof.
  intros Hp. rewrite (reachable_data _ _ Hp).
  pose proof (proj2 (sort_along compare_by_mail_date mail_date_order
                       mail_date_order_trans compare_after compare_before
                       (map (row_accessor parseDate) rows))) as Hperm.
  split; [exact Hperm|]. split.
  - rewrite <- (Permutation_length Hperm). apply length_map.
  - intros r Hr. apply (Permutation_in _ Hperm). now apply in_map.
Qed.

Lemma every_row_becomes_a_record_witness :
  let p := handle (change_post true) (load D3.timeParse_mdY (iso_row :: sample_rows)) in
  reachable (map (row_accessor D3.timeParse_mdY) (iso_row :: sample_rows)) p
  /\ List.length (data p) = 5%nat
  /\ In (row_accessor D3.timeParse_mdY iso_row) (data p).
Proof.
  cbv zeta.
  assert (reachable (map (row_accessor D3.timeParse_mdY) (iso_row :: sample_rows))
            (handle (change_post true)
               (load D3.timeParse_mdY (iso_row :: sample_rows)))) as Hreach
    by (constructor; constructor).
  destruct (every_row_becomes_a_record D3.timeParse_mdY
              (iso_row :: sample_rows) _ Hreach) as [_ [Hlen Hin]].
  split; [exact Hreach|]. split; [exact Hlen|].
  apply Hin. left. reflexivity.
Defined.

Lemma add_unseen_length values seen :
  (List.length (JS.add_unseen seen values) <= List.length values)%nat.
Proof.
  revert seen. induction values as [|v rest IH]; intros seen; simpl; [lia|].
  destruct (existsb (String.eqb v) seen); simpl.
  - specialize (IH seen). lia.
  - specialize (IH (v :: seen)). lia.
Qed.

(** X10.  The height of the chart is fixed by the number of loaded
    records, 20 per record, and filtering does not change it: on every
    page the program reaches the band scale ranges over
    [0, 20 * number of loaded records] with padding 0.2 and the time
    scale over [0, 1030], while the band domain has at most one entry per
    record shown. *)
Theorem chart_height_is_fixed (loaded : list Datum) (p : Page) :
  reachable loaded p ->
  band_range (y p) = (0, 20 * Z.of_nat (List.length loaded))
  /\ band_padding (y p) = (2, 10)
  /\ time_range (x p) = (0, 1030)
  /\ (List.length (band_domain (y p))
      <= List.length (filteredData (filters p) (data p))
      <= List.length loaded)%nat.
Proof.
  intros Hp.
  pose proof (proj2 (sort_along compare_by_mail_date mail_date_order
                       mail_date_order_trans compare_after compare_before
                       loaded)) as Hperm.
  split; [|split; [|split]].
  - rewrite (reachable_page_of _ _ Hp). unfold page_of.
    cbn [y set_band_domain band_range y_scale]. unfold height, rowHeight.
    rewrite <- (Permutation_length Hperm). f_equal. lia.
  - rewrite (reachable_page_of _ _ Hp). reflexivity.
  - rewrite (reachable_page_of _ _ Hp). reflexivity.
  - rewrite (reachable_band_domain _ _ Hp), (reachable_data _ _ Hp).
    split.
    + unfold JS.new_Set.
      eapply Nat.le_trans; [apply add_unseen_length|].
      now rewrite length_map.
    + rewrite (Permutation_length Hperm). unfold filteredData.
      apply filter_length_le.
Qed.

Lemma chart_height_is_fixed_witness :
  let p := handle (change_post true) (start sample_data) in
  reachable sample_data p
  /\ band_range (y p) = (0, 80)
  /\ List.length (band_domain (y p)) = 2%nat.
Proof.
  cbv zeta.
  assert (reachable sample_data
            (handle (change_post true) (start sample_data))) as Hreach
    by (constructor; constructor).
  split; [exact Hreach|].
  split; [|reflexivity].
  exact (proj1 (chart_height_is_fixed sample_data _ Hreach)).
Defined.

Lemma min_without_dates (records : list Datum) (acc : option D3.DateOrInfinity) :
  acc = None \/ acc = Some D3.Infinity ->
  (forall d, In d records -> recommended_mail_date d = None) ->
  let r :=
    fold_left
      (fun acc a =>
         let value := match recommended_mail_date a with
                      | Some t => D3.Finite t
                      | None => D3.Infinity
                      end in
         match acc with
         | None => Some value
         | Some cur => if D3.gt cur value then Some value else acc
         end)
      records acc in
  r = None \/ r = Some D3.Infinity.
Proof.
  revert acc. induction records as [|a rest IH]; intros acc Hacc Hnull.
  - exact Hacc.
  - cbn [fold_left]. rewrite (Hnull a (or_introl eq_refl)).
    apply IH.
    + right. destruct Hacc as [->| ->]; reflexivity.
    + intros d Hd. apply Hnull. now right.
Qed.

Lemma max_without_dates (records : list Datum) :
  (forall d, In d records -> ballot_receipt_deadline d = None) ->
  D3.max records ballot_receipt_deadline = None.
Proof.
  unfold D3.max. induction records as [|a rest IH]; intros Hnull.
  - reflexivity.
  - cbn [fold_left]. rewrite (Hnull a (or_introl eq_refl)).
    apply IH. intros d Hd. apply Hnull. now right.
Qed.

Lemma all_null_or_some {A} (field : Datum -> option A) (records : list Datum) :
  (forall d, In d records -> field d = None)
  \/ (exists d t, In d records /\ field d = Some t).
Proof.
  induction records as [|a rest IH].
  - left. intros d [].
  - destruct (field a) as [t|] eqn:Ha.
    + right. exists a, t. split; [now left | exact Ha].
    + destruct IH as [Hnull|[d [t [Hin Hd]]]].
      * left. intros d [<-|Hin]; [exact Ha | now apply Hnull].
      * right. exists d, t. split; [now right | exact Hd].
Qed.

Lemma startDate_spec (records : list Datum) :
  ((forall d, In d records -> recommended_mail_date d = None)
   /\ startDate records = None)
  \/ (exists lo, earliest_mail_date records lo
                 /\ startDate records = Some (lo - 10)).
Proof.
  destruct (all_null_or_some recommended_mail_date records) as [Hnull|Hsome].
  - left. split; [exact Hnull|].
    pose proof (min_without_dates records None (or_introl eq_refl) Hnull) as H.
    cbv zeta in H. change (minDate records = None
                           \/ minDate records = Some D3.Infinity) in H.
    unfold startDate. destruct H as [-> | ->]; reflexivity.
  - right.
    destruct (min_from_nothing records None (or_introl eq_refl) Hsome)
      as [lo [Hmin Hlo]].
    change (minDate records = Some (D3.Finite lo)) in Hmin.
    exists lo. split; [exact Hlo|]. unfold startDate. rewrite Hmin.
    cbn [D3.timeDay_offset]. f_equal; lia.
Qed.

Lemma endDate_spec (records : list Datum) :
  ((forall d, In d records -> ballot_receipt_deadline d = None)
   /\ endDate records = None)
  \/ (exists hi, latest_receipt_deadline records hi
                 /\ endDate records = Some hi).
Proof.
  destruct (all_null_or_some ballot_receipt_deadline records) as [Hnull|Hsome].
  - left. split; [exact Hnull | now apply max_without_dates].
  - right. destruct (max_from_nothing records Hsome) as [hi [Hmax Hhi]].
    now exists hi.
Qed.

Lemma sorted_In loaded d :
  In d (JS.sort compare_by_mail_date loaded) <-> In d loaded.
Proof.
  pose proof (proj2 (sort_along compare_by_mail_date mail_date_order
                       mail_date_order_trans compare_after compare_before
                       loaded)) as Hperm.
  split; intros H.
  - now apply (Permutation_in _ (Permutation_sym Hperm)).
  - now apply (Permutation_in _ Hperm).
Qed.

(** X11.  The time scale gets an Invalid Date as lower bound exactly when
    no loaded record has a recommended mail date (an empty file
    included), and as upper bound exactly when no loaded record has a
    receipt deadline.  Nothing guards against either. *)
Theorem time_domain_invalid_iff (loaded : list Datum) (p : Page) :
  reachable loaded p ->
  (fst (time_domain (x p)) = None <->
   forall d, In d loaded -> recommended_mail_date d = None)
  /\ (snd (time_domain (x p)) = None <->
      forall d, In d loaded -> ballot_receipt_deadline d = None).
Proof.
  intros Hp. rewrite (reachable_x _ _ Hp). unfold x_scale.
  cbn [time_domain fst snd].
  set (sorted := JS.sort compare_by_mail_date loaded).
  split.
  - destruct (startDate_spec sorted) as [[Hnull ->]|[lo [[[d [Hin Hd]] _] ->]]].
    + split; [|reflexivity]. intros _ d Hd. apply Hnull.
      now apply sorted_In.
    + split; [discriminate|]. intros Hnull.
      apply (proj1 (sorted_In _ _)) in Hin.
      rewrite (Hnull d Hin) in Hd. discriminate.
  - destruct (endDate_spec sorted) as [[Hnull ->]|[hi [[[d [Hin Hd]] _] ->]]].
    + split; [|reflexivity]. intros _ d Hd. apply Hnull.
      now apply sorted_In.
    + split; [discriminate|]. intros Hnull.
      apply (proj1 (sorted_In _ _)) in Hin.
      rewrite (Hnull d Hin) in Hd. discriminate.
Qed.

Lemma time_domain_invalid_iff_witness :
  let guam_only := [nth 2 sample_data (row_accessor D3.timeParse_mdY iso_row)] in
  reachable guam_only (start guam_only)
  /\ time_domain (x (start guam_only)) = (None, None)
  /\ time_domain (x (start [])) = (None, None)
  /\ forall d, In d guam_only -> recommended_mail_date d = None.
Proof.
  cbv zeta. split; [constructor|]. split; [reflexivity|].
  split; [reflexivity|].
  apply (proj1 (time_domain_invalid_iff _ _ (reach_start _))).
  reflexivity.
Defined.

(** X12.  Every recommended mail date lies at least 10 days after the
    start of the time domain, and every receipt deadline at or before its
    end, on every page the program reaches. *)
Theorem dates_within_time_domain (loaded : list Datum) (p : Page) :
  reachable loaded p ->
  forall d, In d loaded ->
    (forall t, recommended_mail_date d = Some t ->
       exists lo, fst (time_domain (x p)) = Some lo /\ lo + 10 <= t)
    /\ (forall t, ballot_receipt_deadline d = Some t ->
          exists hi, snd (time_domain (x p)) = Some hi /\ t <= hi).
Proof.
  intros Hp d Hd. rewrite (reachable_x _ _ Hp). unfold x_scale.
  cbn [time_domain fst snd].
  apply (proj2 (sorted_In _ _)) in Hd.
  set (sorted := JS.sort compare_by_mail_date loaded) in *.
  split; intros t Ht.
  - destruct (startDate_spec sorted) as [[Hnull _]|[lo [[_ Hlow] ->]]].
    + rewrite (Hnull d Hd) in Ht. discriminate.
    + exists (lo - 10). split; [reflexivity|].
      pose proof (Hlow d t Hd Ht). lia.
  - destruct (endDate_spec sorted) as [[Hnull _]|[hi [[_ Hup] ->]]].
    + rewrite (Hnull d Hd) in Ht. discriminate.
    + exists hi. split; [reflexivity|]. now apply (Hup d).
Qed.

Lemma dates_within_time_domain_witness :
  let p := start sample_data in
  let ohio := nth 1 sample_data (row_accessor D3.timeParse_mdY iso_row) in
  reachable sample_data p
  /\ recommended_mail_date ohio = Some (days_from_civil 2024 9 20)
  /\ exists lo, fst (time_domain (x p)) = Some lo
                /\ lo + 10 <= days_from_civil 2024 9 20.
Proof.
  cbv zeta. split; [constructor|]. split; [reflexivity|].
  apply (proj1 (dates_within_time_domain sample_data (start sample_data)
                  (reach_start sample_data)
                  (nth 1 sample_data (row_accessor D3.timeParse_mdY iso_row))
                  (or_intror (or_introl eq_refl)))).
  reflexivity.
Defined.

(** The postmark deadline takes no part in the time domain: a dot can lie
    beyond its end. *)
Example postmark_beyond_time_domain :
  let late :=
    {| state := "Utah";
       recommended_mail_date := Some (days_from_civil 2024 10 1);
       ballot_postmark_deadline := Some (days_from_civil 2024 11 5);
       ballot_receipt_deadline := Some (days_from_civil 2024 11 4);
       return_methods := "Post" |} in
  snd (time_domain (x (start [late]))) = Some (days_from_civil 2024 11 4)
  /\ In (dot_mark (x (start [late])) (y (start [late]))
           ballot_postmark_deadline postmark_fill late)
        (selectAll is_mark (svg (start [late]))).
Proof. vm_compute. split; [reflexivity|]. do 2 right. left. reflexivity. Qed.

(** ** The records shown *)

Lemma StronglySorted_filter {A} (R : A -> A -> Prop) (q : A -> bool) l :
  StronglySorted R l -> StronglySorted R (filter q l).
Proof.
  induction 1 as [|a l Hs IH Hall]; simpl; [constructor|].
  destruct (q a); [|exact IH].
  constructor; [exact IH|].
  apply Forall_forall. intros b Hb. apply filter_In in Hb.
  rewrite Forall_forall in Hall. now apply Hall.
Qed.

(** X13.  Filtering keeps the order of the sort: on every page the
    program reaches, of any two records shown the earlier one has a mail
    date when the later one has, and the smaller or equal date when both
    have one. *)
Theorem shown_records_in_date_order (loaded : list Datum) (p : Page) :
  reachable loaded p ->
  let fd := filteredData (filters p) (data p) in
  forall i j a b, (i < j)%nat ->
    nth_error fd i = Some a -> nth_error fd j = Some b ->
    (recommended_mail_date a = None -> recommended_mail_date b = None)
    /\ (forall da db,
          recommended_mail_date a = Some da ->
          recommended_mail_date b = Some db -> da <= db).
Proof.
  intros Hp. cbv zeta. rewrite (reachable_data _ _ Hp).
  pose proof (proj1 (sort_along compare_by_mail_date mail_date_order
                       mail_date_order_trans compare_after compare_before
                       loaded)) as Hsorted.
  apply (StronglySorted_filter _ (keep (filters p))) in Hsorted.
  intros i j a b Hij Ha Hb.
  pose proof (StronglySorted_nth_error _ _ Hsorted i j a b Hij Ha Hb) as Hab.
  unfold mail_date_order in Hab.
  destruct (recommended_mail_date a), (recommended_mail_date b);
    split; intros; try congruence; try tauto.
Qed.

Lemma shown_records_in_date_order_witness :
  let p := handle (change_post true) (start dated_data) in
  let fd := filteredData (filters p) (data p) in
  reachable dated_data p
  /\ map state dated_data = ["Maine"; "Guam"; "Utah"; "Iowa"; "Ohio"]
  /\ map state fd = ["Iowa"; "Maine"; "Ohio"; "Guam"]
  /\ (forall da db,
        recommended_mail_date
          (nth 1 fd (row_accessor D3.timeParse_mdY iso_row)) = Some da ->
        recommended_mail_date
          (nth 2 fd (row_accessor D3.timeParse_mdY iso_row)) = Some db ->
        da <= db)
  /\ (recommended_mail_date
        (nth 3 fd (row_accessor D3.timeParse_mdY iso_row)) = None).
Proof.
  cbv zeta.
  assert (reachable dated_data (handle (change_post true) (start dated_data)))
    as Hreach by (constructor; constructor).
  split; [exact Hreach|]. split; [reflexivity|]. split; [reflexivity|].
  split.
  - intros da db Ha Hb.
    refine (proj2 (shown_records_in_date_order dated_data _ Hreach
                     1%nat 2%nat _ _ _ eq_refl eq_refl) da db Ha Hb).
    lia.
  - reflexivity.
Defined.

Lemma add_unseen_NoDup_id values seen :
  NoDup values -> (forall v, In v values -> ~ In v seen) ->
  JS.add_unseen seen values = values.
Proof.
  revert seen. induction values as [|v rest IH]; intros seen Hnd Hfresh;
    [reflexivity|].
  inversion Hnd as [|? ? Hv Hrest]; subst. cbn [JS.add_unseen].
  destruct (existsb (String.eqb v) seen) eqn:E.
  - apply existsb_eqb_In in E. exfalso. apply (Hfresh v); [now left | exact E].
  - f_equal. apply IH; [exact Hrest|].
    intros w Hw [<-|Hin]; [contradiction|].
    apply (Hfresh w); [now right | exact Hin].
Qed.

Lemma NoDup_map_filter {A B} (f : A -> B) (q : A -> bool) l :
  NoDup (map f l) -> NoDup (map f (filter q l)).
Proof.
  induction l as [|a l IH]; simpl; intros Hnd; [constructor|].
  inversion Hnd as [|? ? Ha Hrest]; subst.
  destruct (q a); [|now apply IH].
  simpl. constructor; [|now apply IH].
  intros Hin. apply Ha. apply in_map_iff in Hin.
  destruct Hin as [b [Hb Hbin]]. apply filter_In in Hbin.
  apply in_map_iff. exists b. tauto.
Qed.

Lemma count_occ_NoDup_In (l : list Datum) d :
  NoDup l -> In d l -> count_occ Datum_eq_dec l d = 1%nat.
Proof.
  intros Hnd Hin.
  pose proof (proj1 (NoDup_count_occ Datum_eq_dec l) Hnd d) as Hle.
  pose proof (proj1 (count_occ_In Datum_eq_dec l d) Hin) as Hpos. lia.
Qed.

Lemma selectAll_has_class c g :
  selectAll (has_class c) g = selectAll (has_any_class [c]) g.
Proof.
  unfold selectAll. apply filter_ext. intros n.
  unfold has_any_class. cbn [existsb]. now rewrite Bool.orb_false_r.
Qed.

Lemma reachable_lines loaded p :
  reachable loaded p ->
  selectAll (has_class "line") (svg p) =
  drawn_lines (x p) (y p) (filteredData (filters p) (data p)).
Proof.
  intros Hp. rewrite selectAll_has_class, (reachable_svg _ _ Hp).
  rewrite selectAll_rendered_marks by reflexivity.
  unfold drawn_lines, drawn_dots.
  rewrite !filter_app, filter_map_every, !filter_map_none by reflexivity.
  now rewrite !app_nil_r.
Qed.

Lemma reachable_dots loaded p :
  reachable loaded p ->
  selectAll (has_class "dot") (svg p) =
  drawn_dots (x p) (y p) (filteredData (filters p) (data p)).
Proof.
  intros Hp. rewrite selectAll_has_class, (reachable_svg _ _ Hp).
  rewrite selectAll_rendered_marks by reflexivity.
  unfold drawn_lines, drawn_dots.
  rewrite !filter_app, filter_map_none, !filter_map_every by reflexivity.
  reflexivity.
Qed.

(** X14.  When the state names of the loaded records are distinct, on
    every page the program reaches the band domain is the list of the
    states of the records shown, one band per record in their order; a
    record shown has exactly one line when both its mail date and its
    receipt deadline are non-null and none otherwise, and its dots are
    exactly one per non-null date field, at that date, in the order mail
    date, postmark deadline, receipt deadline. *)
Theorem one_band_per_record (loaded : list Datum) (p : Page) :
  NoDup (map state loaded) ->
  reachable loaded p ->
  let fd := filteredData (filters p) (data p) in
  band_domain (y p) = map state fd
  /\ forall d, In d fd ->
       filter (bound_to d) (selectAll (has_class "line") (svg p)) =
         match recommended_mail_date d, ballot_receipt_deadline d with
         | Some mail, Some receipt =>
             [ El "line" ["line"] (BoundDatum d)
                  [ ("x1", APixel (time_image (x p) (Some mail)));
                    ("x2", APixel (time_image (x p) (Some receipt)));
                    ("y1", APixel (band_center (y p) (state d)));
                    ("y2", APixel (band_center (y p) (state d)));
                    ("stroke", AString "gray") ]
                  [] None [] ]
         | _, _ => []
         end
       /\ filter (bound_to d) (selectAll (has_class "dot") (svg p)) =
            match recommended_mail_date d with
            | Some mail =>
                [ El "circle" ["dot"] (BoundDatum d)
                     [ ("cx", APixel (time_image (x p) (Some mail)));
                       ("cy", APixel (band_center (y p) (state d)));
                       ("r", ANumber 6) ]
                     [ ("fill", "#FF6F61") ] None [] ]
            | None => []
            end
            ++ match ballot_postmark_deadline d with
               | Some postmark =>
                   [ El "circle" ["dot"] (BoundDatum d)
                        [ ("cx", APixel (time_image (x p) (Some postmark)));
                          ("cy", APixel (band_center (y p) (state d)));
                          ("r", ANumber 6) ]
                        [ ("fill", "#2171B5") ] None [] ]
               | None => []
               end
            ++ match ballot_receipt_deadline d with
               | Some receipt =>
                   [ El "circle" ["dot"] (BoundDatum d)
                        [ ("cx", APixel (time_image (x p) (Some receipt)));
                          ("cy", APixel (band_center (y p) (state d)));
                          ("r", ANumber 6) ]
                        [ ("fill", "#EF61F7") ] None [] ]
               | None => []
               end
       /\ List.length
            (filter (bound_to d) (selectAll (has_class "line") (svg p))) =
          (if truthy (recommended_mail_date d)
              && truthy (ballot_receipt_deadline d) then 1 else 0)%nat
       /\ List.length
            (filter (bound_to d) (selectAll (has_class "dot") (svg p))) =
          date_count d.
Proof.
  intros Hnd Hp. cbv zeta.
  pose proof (proj2 (sort_along compare_by_mail_date mail_date_order
                       mail_date_order_trans compare_after compare_before
                       loaded)) as Hperm.
  assert (NoDup (map state (filteredData (filters p) (data p)))) as Hfd.
  { rewrite (reachable_data _ _ Hp). apply NoDup_map_filter.
    apply (Permutation_NoDup (Permutation_map state Hperm) Hnd). }
  split.
  - rewrite (reachable_band_domain _ _ Hp). unfold JS.new_Set.
    apply add_unseen_NoDup_id; [exact Hfd | intros v _ []].
  - intros d Hd.
    pose proof (count_occ_NoDup_In _ d (NoDup_map_inv _ _ Hfd) Hd) as Hone.
    rewrite (reachable_lines _ _ Hp), (reachable_dots _ _ Hp).
    unfold drawn_lines, drawn_dots, date_count.
    rewrite !filter_app, !filter_bound by reflexivity. rewrite Hone.
    unfold line_mark, dot_mark, mail_fill, postmark_fill, receipt_fill.
    destruct (recommended_mail_date d), (ballot_postmark_deadline d),
      (ballot_receipt_deadline d); repeat split; reflexivity.
Qed.

Lemma one_band_per_record_witness :
  let p := handle (change_post true) (start dated_data) in
  let iowa := nth 3 dated_data (row_accessor D3.timeParse_mdY iso_row) in
  let ohio := nth 4 dated_data (row_accessor D3.timeParse_mdY iso_row) in
  NoDup (map state dated_data)
  /\ reachable dated_data p
  /\ state iowa = "Iowa" /\ state ohio = "Ohio"
  /\ band_domain (y p) = ["Iowa"; "Maine"; "Ohio"; "Guam"]
  /\ List.length (filter (bound_to iowa)
                    (selectAll (has_class "line") (svg p))) = 1%nat
  /\ List.length (filter (bound_to iowa)
                    (selectAll (has_class "dot") (svg p))) = 3%nat
  /\ List.length (filter (bound_to ohio)
                    (selectAll (has_class "line") (svg p))) = 0%nat
  /\ List.length (filter (bound_to ohio)
                    (selectAll (has_class "dot") (svg p))) = 1%nat.
Proof.
  cbv zeta.
  assert (NoDup (map state dated_data)) as Hnd.
  { vm_compute. repeat constructor; simpl; intuition discriminate. }
  assert (reachable dated_data (handle (change_post true) (start dated_data)))
    as Hreach by (constructor; constructor).
  destruct (one_band_per_record dated_data _ Hnd Hreach) as [Hdom Hper].
  split; [exact Hnd|]. split; [exact Hreach|].
  split; [reflexivity|]. split; [reflexivity|].
  split; [rewrite Hdom; reflexivity|].
  assert (In (nth 3 dated_data (row_accessor D3.timeParse_mdY iso_row))
             (filteredData
                (filters (handle (change_post true) (start dated_data)))
                (data (handle (change_post true) (start dated_data)))))
    as Hiowa by (vm_compute; left; reflexivity).
  assert (In (nth 4 dated_data (row_accessor D3.timeParse_mdY iso_row))
             (filteredData
                (filters (handle (change_post true) (start dated_data)))
                (data (handle (change_post true) (start dated_data)))))
    as Hohio by (vm_compute; do 2 right; left; reflexivity).
  destruct (Hper _ Hiowa) as [_ [_ [Hl Hd]]].
  destruct (Hper _ Hohio) as [_ [_ [Hl' Hd']]].
  rewrite Hl, Hd, Hl', Hd'. repeat split; reflexivity.
Defined.

(** ** Date cells *)

(** X15.  With the d3 parser, a date field of a record is non-null
    exactly when the cell has the layout "%m/%d/%Y" (fields of at most 2,
    2 and 4 code units, digits after optional white space in the sense of
    [\s], separated by "/"); the sentinel "N/A" is one of the many cells
    that do not, and the test for it never changes the outcome.  The
    parser accepts exactly the layout on every sequence of code units. *)
Theorem date_field_iff_layout (d : Row) :
  (recommended_mail_date (row_accessor D3.timeParse_mdY d) <> None <->
   conforms_mdY (col_Recommended_Mail_Date d))
  /\ (ballot_postmark_deadline (row_accessor D3.timeParse_mdY d) <> None <->
      conforms_mdY (col_Ballot_Postmark_Deadline d))
  /\ (ballot_receipt_deadline (row_accessor D3.timeParse_mdY d) <> None <->
      conforms_mdY (col_Ballot_Receipt_Deadline d))
  /\ (forall cell,
        parse_cell D3.timeParse_mdY cell = D3.timeParse_mdY cell)
  /\ ~ conforms_mdY "N/A"
  /\ (forall units, D3.timeParse_units units <> None <-> layout_mdY units).
Proof.
  unfold row_accessor.
  cbn [recommended_mail_date ballot_postmark_deadline ballot_receipt_deadline].
  rewrite !parse_cell_d3.
  split; [apply timeParse_mdY_accepts|].
  split; [apply timeParse_mdY_accepts|].
  split; [apply timeParse_mdY_accepts|].
  split; [apply parse_cell_d3|].
  split; [|apply timeParse_units_accepts].
  intros Hc. apply timeParse_mdY_accepts in Hc. now apply Hc.
Qed.

Lemma date_field_iff_layout_witness :
  conforms_mdY "10/01/2024"
  /\ ~ conforms_mdY "2024-11-12"
  /\ layout_mdY (160%N :: D3.code_units "1/05/2024")
  /\ layout_mdY (8195%N :: D3.code_units "1/05/2024")
  /\ recommended_mail_date (row_accessor D3.timeParse_mdY iso_row) <> None
  /\ ballot_receipt_deadline (row_accessor D3.timeParse_mdY iso_row) = None.
Proof.
  destruct (date_field_iff_layout iso_row)
    as [[Hmail _] [_ [[_ Hrc] [_ [_ Hunits]]]]].
  split; [|split; [|split; [|split; [|split]]]].
  - apply Hmail. discriminate.
  - intros Hc. apply Hrc in Hc. now apply Hc.
  - apply Hunits. discriminate.
  - apply Hunits. discriminate.
  - discriminate.
  - reflexivity.
Defined.


(** ** Records with another return method *)

(** X17.  A record whose return methods are neither "Post" nor
    "Post, Electronic" is shown only while the [all] flag is set: on
    every page the program reaches with that flag unset, the record is
    not among the records shown and no line or dot is bound to it. *)
Theorem other_methods_only_in_all (loaded : list Datum) (p : Page) (d : Datum) :
  reachable loaded p ->
  return_methods d <> "Post" ->
  return_methods d <> "Post, Electronic" ->
  all (filters p) = false ->
  ~ In d (filteredData (filters p) (data p))
  /\ forall n, In n (selectAll is_mark (svg p)) -> bound_to d n = false.
Proof.
  intros Hp Hpost Helec Hall.
  assert (keep (filters p) d = false) as Hkeep.
  { unfold keep. rewrite Hall.
    apply String.eqb_neq in Hpost. apply String.eqb_neq in Helec.
    rewrite Hpost, Helec.
    destruct (post (filters p)), (postElectronic (filters p)); reflexivity. }
  split.
  - unfold filteredData. rewrite filter_In. rewrite Hkeep.
    intros [_ H]. discriminate.
  - intros n Hin.
    rewrite (reachable_marks _ _ Hp) in Hin.
    apply drawn_mark_inv in Hin. destruct Hin as [d' [Hd' [Hb _]]].
    destruct (bound_to d n) eqn:E; [|reflexivity].
    apply bound_to_iff in E. rewrite E in Hb. injection Hb as <-.
    unfold filteredData in Hd'. apply filter_In in Hd'.
    destruct Hd' as [_ Hk]. congruence.
Qed.

Lemma other_methods_only_in_all_witness :
  let p := handle (change_postElectronic true) (start sample_data) in
  let wisconsin := nth 0 (data p) (row_accessor D3.timeParse_mdY iso_row) in
  reachable sample_data p
  /\ return_methods wisconsin = "Post, Electronic, Fax"
  /\ ~ In wisconsin (filteredData (filters p) (data p))
  /\ In wisconsin (filteredData (filters (start sample_data)) (data p)).
Proof.
  cbv zeta.
  assert (reachable sample_data
            (handle (change_postElectronic true) (start sample_data)))
    as Hreach by (constructor; constructor).
  split; [exact Hreach|]. split; [reflexivity|]. split.
  - apply (other_methods_only_in_all sample_data _ _ Hreach);
      [discriminate | discriminate | reflexivity].
  - vm_compute. left. reflexivity.
Defined.
